(** * Earthquake triangulator: the scenario generator, the residual model and
    the solve step of [earthquake.py]

    The program places stations in a disk, draws a source point below them,
    derives noisy relative arrival times and hands the residual function
    [residuals_time] to a least-squares routine.

    Numbers.  NumPy's float64 values are idealised as real numbers: rounding,
    overflow, infinities and NaN are outside this model.  The theorems state
    the arithmetic as the code performs it, operation by operation, or rest on
    what float64 arithmetic keeps for finite values: [x - x = 0], the order
    of two values, the first minimum of an array.  The configurations behind
    the counterexamples have coordinates, distances and times for which the
    float64 operations of the modelled lines give exactly the values stated.
    Every array keeps the order and the indexing of the source.

    Exceptions.  A Python exception is a value [Raise e] of the result type
    [res]; the only exceptions the modelled lines can raise are NumPy's
    [IndexError] and [ValueError]. *)

From Stdlib Require Import Reals Lra Lia ZArith List Psatz.
Import ListNotations.

Open Scope R_scope.

(** ** Exceptions *)

Inductive exn : Type :=
| IndexError
| ValueError.

Inductive res (A : Type) : Type :=
| Ok (a : A)
| Raise (e : exn).

Arguments Ok {A} a.
Arguments Raise {A} e.

Definition bind {A B : Type} (m : res A) (k : A -> res B) : res B :=
  match m with
  | Ok a => k a
  | Raise e => Raise e
  end.

Notation "x <- m ;; k" := (bind m (fun x => k))
  (at level 61, m at next level, right associativity).

(** ** Points and arrays *)

(** A NumPy array of shape (3,): a station, the true point, a candidate. *)
Record point : Type := mkPoint { px : R; py : R; pz : R }.

Definition origin : point := mkPoint 0 0 0.

(** [a - b] and [a + b] on arrays of shape (3,). *)
Definition psub (a b : point) : point :=
  mkPoint (px a - px b) (py a - py b) (pz a - pz b).

Definition padd (a b : point) : point :=
  mkPoint (px a + px b) (py a + py b) (pz a + pz b).

Definition dot (a b : point) : R :=
  px a * px b + py a * py b + pz a * pz b.

(** One row of [np.linalg.norm(_, axis=1)]: the square root of the row's sum
    of squares. *)
Definition norm (d : point) : R := sqrt (dot d d).

(** [a[i]] on a one-dimensional array, with Python's negative indices. *)
Definition getitem (a : list R) (i : Z) : res R :=
  let len := Z.of_nat (length a) in
  let j := if (i <? 0)%Z then (i + len)%Z else i in
  if ((j <? 0)%Z || (len <=? j)%Z)%bool then Raise IndexError
  else match nth_error a (Z.to_nat j) with
       | Some r => Ok r
       | None => Raise IndexError
       end.

(** [a - b] on one-dimensional arrays, with NumPy's broadcasting: equal
    lengths go element by element, a length-one operand is stretched, and
    any other pair of shapes is a [ValueError]. *)
Fixpoint zip_sub (a b : list R) : list R :=
  match a, b with
  | x :: a', y :: b' => (x - y) :: zip_sub a' b'
  | _, _ => []
  end.

Definition np_sub (a b : list R) : res (list R) :=
  if Nat.eqb (length a) (length b) then Ok (zip_sub a b)
  else match a, b with
       | _, [y] => Ok (map (fun x => x - y) a)
       | [x], _ => Ok (map (fun y => x - y) b)
       | _, _ => Raise ValueError
       end.

Fixpoint zip_add (a b : list R) : list R :=
  match a, b with
  | x :: a', y :: b' => (x + y) :: zip_add a' b'
  | _, _ => []
  end.

Definition np_add (a b : list R) : res (list R) :=
  if Nat.eqb (length a) (length b) then Ok (zip_add a b)
  else match a, b with
       | _, [y] => Ok (map (fun x => x + y) a)
       | [x], _ => Ok (map (fun y => x + y) b)
       | _, _ => Raise ValueError
       end.

(** [stations - p]: every row minus [p].  The station list [[]] stands for
    [np.array([])], of shape (0,), which is what [gen_station_positions]
    returns without stations and which does not broadcast against the shape
    (3,) of [p].  An empty array of shape (0, 3) is not represented. *)
Definition rows_sub (stations : list point) (p : point) : res (list point) :=
  match stations with
  | [] => Raise ValueError
  | _ => Ok (map (fun s => psub s p) stations)
  end.

(** [np.linalg.norm(stations - p, axis=1) / v].  With [v = 0] NumPy returns
    infinities or NaN, with a warning and no exception; those are not real
    numbers, and at [v = 0] the values of this model are not the program's. *)
Definition travel_times (stations : list point) (p : point) (v : R)
  : res (list R) :=
  rows <- rows_sub stations p ;;
  Ok (map (fun d => norm d / v) rows).

(** ** The residual model (lines 36-42) *)

Definition residuals_time (p : point) (stations : list point)
    (rel_times : list R) (v : R) (ref_index : Z) : res (list R) :=
  t_pred <- travel_times stations p v ;;
  t_ref <- getitem t_pred ref_index ;;
  let t_rel_pred := map (fun t => t - t_ref) t_pred in
  np_sub t_rel_pred rel_times.

(** ** NumPy's global random generator *)

(** The state of [np.random] is represented by the values its coming draws
    will return: the uniform doubles of [rand] and [uniform], and the standard
    normal deviates behind [normal].  A draw returns the head of its stream
    and leaves the rest as the new state. *)
Record rng : Type := mkRng { uniforms : nat -> R; normals : nat -> R }.

(** [np.random.rand()]. *)
Definition rand (g : rng) : R * rng :=
  (uniforms g 0%nat, mkRng (fun k => uniforms g (S k)) (normals g)).

(** [np.random.uniform(low, high)]: [low + (high - low) * rand()].  Over the
    reals the value stays below [high]; in float64 the last rounding can
    reach [high]. *)
Definition uniform (low high : R) (g : rng) : R * rng :=
  let (u, g') := rand g in (low + (high - low) * u, g').

Definition standard_normal (g : rng) : R * rng :=
  (normals g 0%nat, mkRng (uniforms g) (fun k => normals g (S k))).

Fixpoint normal_draws (loc scale : R) (size : nat) (g : rng) : list R * rng :=
  match size with
  | O => ([], g)
  | S size' =>
      let (z, g1) := standard_normal g in
      let (rest, g2) := normal_draws loc scale size' g1 in
      ((loc + scale * z) :: rest, g2)
  end.

(** [np.random.normal(loc, scale, size)]; NumPy refuses a negative scale. *)
Definition normal (loc scale : R) (size : nat) (g : rng) : res (list R * rng) :=
  if Rlt_dec scale 0 then Raise ValueError
  else Ok (normal_draws loc scale size g).

(** [np.random.seed()] without an argument: the state is replaced by one
    derived from fresh operating-system entropy, whatever it was before. *)
Definition seed (entropy : rng) (g : rng) : rng := entropy.

(** ** The scenario generator (lines 14-34) *)

Fixpoint gen_rows (count : nat) (rad : R) (g : rng) : list point * rng :=
  match count with
  | O => ([], g)
  | S count' =>
      let (u1, g1) := rand g in
      let r := sqrt u1 * rad in
      let (u2, g2) := rand g1 in
      let theta := u2 * 2 * PI in
      let x := r * cos theta in
      let y := r * sin theta in
      let (z, g3) := uniform (-500) 500 g2 in
      let (rest, g4) := gen_rows count' rad g3 in
      (mkPoint x y z :: rest, g4)
  end.

(** [for i in range(n)]: a negative [n] gives no iteration. *)
Definition gen_station_positions (n : Z) (rad : R) (g : rng)
  : list point * rng :=
  gen_rows (Z.to_nat n) rad g.

Definition gen_true_point (rad dmin dmax : R) (g : rng) : point * rng :=
  let (u1, g1) := rand g in
  let r := sqrt u1 * rad in
  let (u2, g2) := rand g1 in
  let theta := u2 * 2 * PI in
  let x := r * cos theta in
  let y := r * sin theta in
  let (d, g3) := uniform dmin dmax g2 in
  (mkPoint x y (- d), g3).

(** ** [np.argmin] and [np.mean] *)

(** One pass from the left; a later element replaces the current minimum
    only when it is strictly smaller, so ties go to the first index. *)
Fixpoint argmin_from (best_i : nat) (best : R) (i : nat) (a : list R) : nat :=
  match a with
  | [] => best_i
  | y :: a' =>
      if Rlt_dec y best then argmin_from i y (S i) a'
      else argmin_from best_i best (S i) a'
  end.

(** [np.argmin(a)]; the argmin of an empty array is a [ValueError]. *)
Definition argmin (a : list R) : res Z :=
  match a with
  | [] => Raise ValueError
  | y :: a' => Ok (Z.of_nat (argmin_from 0%nat y 1%nat a'))
  end.

(** [np.mean(stations, axis=0)]: the rows are added up and the sum is divided
    by their number.  On [np.array([])] the mean is a scalar, and indexing it
    (line 99) is an [IndexError]. *)
Definition sum_rows (stations : list point) : point :=
  fold_left padd stations origin.

Definition mean_rows (stations : list point) : res point :=
  match stations with
  | [] => Raise IndexError
  | _ =>
      let s := sum_rows stations in
      let n := INR (length stations) in
      Ok (mkPoint (px s / n) (py s / n) (pz s / n))
  end.

(** ** [main] *)

(** The constants of lines 66-70 and 83, as one record. *)
Record config : Type := mkConfig {
  n : Z;
  rad : R;
  dmin : R;
  dmax : R;
  v : R;
  noise_std : R
}.

Definition main_config : config :=
  mkConfig 7 30000 500 10000 5000 (1 / 100).

(** The local variables of lines 73-85 once they are all assigned. *)
Record scenario : Type := mkScenario {
  stations : list point;
  true_point : point;
  true_times : list R;
  ref_index : Z;
  noise : list R;
  noisy_times : list R;
  measured_rel_times : list R
}.

(** [a - a[ref_index]]: an array minus one of its own entries.  The entry at
    [ref_index] is [x - x], zero for a finite float64 value as for a real
    number.  The other entries are rounded in float64, so that a constant
    added to every entry of [a] beforehand can change them. *)
Definition relative_to (a : list R) (ref : Z) : res (list R) :=
  a_ref <- getitem a ref ;;
  Ok (map (fun t => t - a_ref) a).

(** Lines 64-85.  [g] is the state [np.random] has when [main] is entered;
    [entropy] is what the operating system supplies to [np.random.seed()]. *)
Definition main_generate (c : config) (g entropy : rng) : res scenario :=
  let g0 := seed entropy g in
  let (stations, g1) := gen_station_positions (n c) (rad c) g0 in
  let (true_point, g2) := gen_true_point (rad c) (dmin c) (dmax c) g1 in
  true_times <- travel_times stations true_point (v c) ;;
  ref_index <- argmin true_times ;;
  drawn <- normal 0 (noise_std c) (length true_times) g2 ;;
  let noise := fst drawn in
  noisy_times <- np_add true_times noise ;;
  measured_rel_times <- relative_to noisy_times ref_index ;;
  Ok (mkScenario stations true_point true_times ref_index noise
        noisy_times measured_rel_times).

(** Lines 97-99: the initial guess. *)
Definition initial_guess (stations : list point) : res point :=
  centroid <- mean_rows stations ;;
  Ok (mkPoint (px centroid) (py centroid) (-5000)).

(** [scipy.optimize.least_squares] is a third-party routine: it is a
    parameter of the solve step.  It receives the residual function and the
    start point, and either raises or returns a result object, of which
    [main] reads the field [x] only. *)
Record OptimizeResult : Type := mkResult { x : point; status : Z }.

Definition solver : Type :=
  (point -> res (list R)) -> point -> res OptimizeResult.

(** The function handed to the routine: [residuals_time] with its [args]. *)
Definition objective (stations : list point) (rel_times : list R) (v : R)
    (ref_index : Z) : point -> res (list R) :=
  fun p => residuals_time p stations rel_times v ref_index.

(** Lines 97-104. *)
Definition main_solve (least_squares : solver) (stations : list point)
    (measured_rel_times : list R) (v : R) (ref_index : Z) : res point :=
  p0 <- initial_guess stations ;;
  res_opt <- least_squares
               (objective stations measured_rel_times v ref_index) p0 ;;
  Ok (x res_opt).

(** Lines 64-104 with the constants of [main]. *)
Definition main (least_squares : solver) (g entropy : rng)
  : res (scenario * point) :=
  sc <- main_generate main_config g entropy ;;
  est_point <- main_solve least_squares (stations sc) (measured_rel_times sc)
                 (v main_config) (ref_index sc) ;;
  Ok (sc, est_point).

(** ** The evaluation (line 108) *)

(** Line 108: the distance between the true point and the estimate. *)
Definition estimation_error (true_point est_point : point) : R :=
  norm (psub true_point est_point).

(** ** The random timestamp (lines 44-53) *)

(** [np.random.randint(low, high)].  The integers that the generator yields
    are a stream of raw values; a bounded draw refuses an empty interval and
    otherwise maps the next raw value into [[low, high)]. *)
Definition randint (low high : Z) (raw : nat -> Z)
  : res (Z * (nat -> Z)) :=
  if (high <=? low)%Z then Raise ValueError
  else Ok ((low + raw 0%nat mod (high - low))%Z, fun k => raw (S k)).

(** A [datetime] with its microsecond at zero. *)
Record datetime : Type := mkDatetime {
  year : Z;
  month : Z;
  day : Z;
  hour : Z;
  minute : Z;
  second : Z
}.

Definition is_leap (y : Z) : bool :=
  ((y mod 4 =? 0)%Z && (negb (y mod 100 =? 0)%Z || (y mod 400 =? 0)%Z))%bool.

Definition days_in_month (y m : Z) : Z :=
  if (m =? 2)%Z then (if is_leap y then 29 else 28)%Z
  else if ((m =? 4) || (m =? 6) || (m =? 9) || (m =? 11))%Z%bool then 30%Z
  else 31%Z.

(** The constructor [datetime(year, month, day, hour, minute, second)]: a
    field outside its range is a [ValueError]. *)
Definition datetime_new (y mo d h mi s : Z) : res datetime :=
  if ((1 <=? y) && (y <=? 9999) && (1 <=? mo) && (mo <=? 12)
      && (1 <=? d) && (d <=? days_in_month y mo)
      && (0 <=? h) && (h <=? 23) && (0 <=? mi) && (mi <=? 59)
      && (0 <=? s) && (s <=? 59))%Z%bool
  then Ok (mkDatetime y mo d h mi s)
  else Raise ValueError.

Definition generate_random_datetime (raw : nat -> Z)
  : res (datetime * (nat -> Z)) :=
  r1 <- randint 2000 2030 raw ;;
  r2 <- randint 1 13 (snd r1) ;;
  r3 <- randint 1 29 (snd r2) ;;
  r4 <- randint 0 24 (snd r3) ;;
  r5 <- randint 0 60 (snd r4) ;;
  r6 <- randint 0 60 (snd r5) ;;
  dt <- datetime_new (fst r1) (fst r2) (fst r3) (fst r4) (fst r5) (fst r6) ;;
  Ok (dt, snd r6).

(** * Specification vocabulary *)

(** What an index is when it is the first position of the minimum. *)
Definition first_min_index (a : list R) (k : nat) : Prop :=
  (k < length a)%nat /\
  (forall j, (j < length a)%nat -> nth k a 0 <= nth j a 0) /\
  (forall j, (j < k)%nat -> nth k a 0 < nth j a 0).

(** Two generator states that give the same first [nu] uniform draws and the
    same first [nn] normal draws. *)
Definition same_draws (nu nn : nat) (g g' : rng) : Prop :=
  (forall k, (k < nu)%nat -> uniforms g k = uniforms g' k) /\
  (forall k, (k < nn)%nat -> normals g k = normals g' k).

(** A generator state whose every draw is [u]. *)
Definition constant_rng (u : R) : rng := mkRng (fun _ => u) (fun _ => u).

(** A generator state whose first [nu] uniform draws and first [nn] normal
    draws are 0 and whose later draws are 1. *)
Definition step_rng (nu nn : nat) : rng :=
  mkRng (fun k => if (k <? nu)%nat then 0 else 1)
    (fun k => if (k <? nn)%nat then 0 else 1).

(** A configuration with a negative speed, three stations and
    [dmin > dmax]. *)
Definition invalid_config : config :=
  mkConfig 3 30000 10000 500 (-5000) (1 / 100).

(** A station as lines 18-23 make it from three uniform draws. *)
Definition station_of_draws (rad u1 u2 u3 : R) : point :=
  mkPoint (sqrt u1 * rad * cos (u2 * 2 * PI))
    (sqrt u1 * rad * sin (u2 * 2 * PI))
    (-500 + (500 - -500) * u3).

(** ** The least-squares problem *)

(** Modelled from the spec: [scipy.optimize.least_squares] is a third-party
    routine whose code is not part of the repository.  Section 4.3 gives what
    it computes: a point that minimises half the sum of the squared
    residuals. *)
Definition sum_squares (r : list R) : R :=
  fold_right (fun e acc => e * e + acc) 0 r.

Definition cost (f : point -> res (list R)) (p : point) : res R :=
  r <- f p ;; Ok (/ 2 * sum_squares r).

Definition least_squares_solution (f : point -> res (list R)) (p : point)
  : Prop :=
  exists c, cost f p = Ok c /\ forall q c', cost f q = Ok c' -> c <= c'.



(** Zero-noise recovery (section 8) for one true point [tp]: the relative
    times are those that lines 77-85 form from [tp] without noise, the solve
    step returns an estimate, and the error of line 108 is at most [tol]. *)
Definition zero_noise_recovery (least_squares : solver)
    (stations : list point) (v : R) (tp : point) (tol : R) : Prop :=
  exists t ref rel est,
    travel_times stations tp v = Ok t /\
    argmin t = Ok ref /\
    relative_to t ref = Ok rel /\
    main_solve least_squares stations rel v ref = Ok est /\
    estimation_error tp est <= tol.

(** ** Station geometry *)

Definition scale (k : R) (a : point) : point :=
  mkPoint (k * px a) (k * py a) (k * pz a).

(** [s] lies in the plane through [a] with normal [nvec]. *)
Definition in_plane (a nvec s : point) : Prop := dot (psub s a) nvec = 0.

Definition coplanar (stations : list point) : Prop :=
  exists a nvec, dot nvec nvec <> 0 /\ Forall (in_plane a nvec) stations.


(** ** Example configurations *)

(** Three stations on a line, a source, and the image of the source under a
    half turn about that line.  The source is 13, 15 and 20 km from the
    stations; [collinear_rel_times] are its exact relative times at 5000 m/s
    with station 0 as the reference. *)
Definition collinear_stations : list point :=
  [mkPoint 5000 0 0; mkPoint 9000 0 0; mkPoint 16000 0 0].

Definition collinear_source : point := mkPoint 0 7200 (-9600).

Definition collinear_ghost : point := mkPoint 0 (-7200) (-9600).

Definition collinear_rel_times : list R := [0; 2 / 5; 7 / 5].

(** The same arrangement at five eighths of the size.  The source is 8125,
    9375 and 12500 m from the stations, so that its travel times at 5000 m/s,
    1.625, 1.875 and 2.5 s, are binary fractions, and [line_rel_times] are
    its relative times with station 0 as the reference.  [line_ghost] is the
    image of the source under a half turn about the line of the stations. *)
Definition line_stations : list point :=
  [mkPoint 3125 0 0; mkPoint 5625 0 0; mkPoint 10000 0 0].

Definition line_source : point := mkPoint 0 4500 (-6000).






(** Four stations near the surface that are not coplanar, and two sources at
    a depth of 1875 m, 6250 m apart.  Every station is 3750 m farther from
    [twin_far] than from [twin_near], so the two sources have the same
    relative times, [twin_rel_times] at 5000 m/s with station 0 as the
    reference.  Every coordinate is a multiple of a quarter of a metre and
    every distance a multiple of 31.25 m: the travel times are binary
    fractions, 13/32, 17/32, 17/32 and 5/4 s for [twin_near] and 37/32,
    41/32, 41/32 and 2 s for [twin_far]. *)
Definition twin_stations : list point :=
  [mkPoint (9375 / 4) 0 0; mkPoint (10875 / 4) 2100 (-300);
   mkPoint (10875 / 4) (-1575) 225; mkPoint 4875 5760 (-195)].

Definition twin_near : point := mkPoint 3125 0 (-1875).

Definition twin_far : point := mkPoint (-3125) 0 (-1875).

Definition twin_rel_times : list R := [0; 1 / 8; 1 / 8; 27 / 32].

(** The constants of [main] with four stations and no noise. *)
Definition zero_noise_config : config := mkConfig 4 30000 500 10000 5000 0.

(** * Properties *)

(** ** Arrays *)

Lemma getitem_in_range (a : list R) (i : Z) :
  (0 <= i < Z.of_nat (length a))%Z ->
  getitem a i = Ok (nth (Z.to_nat i) a 0).
Proof.
  intros Hi. unfold getitem.
  destruct (Z.ltb_spec i 0) as [Hneg | _]; [lia |].
  destruct (Z.ltb_spec i 0) as [Hneg | _]; [lia |].
  destruct (Z.leb_spec (Z.of_nat (length a)) i) as [Hbig | _]; [lia |].
  simpl.
  destruct (nth_error a (Z.to_nat i)) as [r |] eqn:E.
  - now rewrite (nth_error_nth _ _ 0 E).
  - apply nth_error_None in E. lia.
Qed.

Lemma getitem_Ok_nonneg (a : list R) (i : Z) (r : R) :
  (0 <= i)%Z -> getitem a i = Ok r ->
  (Z.to_nat i < length a)%nat /\ nth (Z.to_nat i) a 0 = r.
Proof.
  intros Hi. unfold getitem.
  destruct (Z.ltb_spec i 0) as [Hneg | _]; [lia |].
  destruct (Z.ltb_spec i 0) as [Hneg | _]; [lia |].
  destruct (Z.leb_spec (Z.of_nat (length a)) i) as [Hbig | Hlt]; simpl;
    [discriminate |].
  destruct (nth_error a (Z.to_nat i)) as [r' |] eqn:E; [| discriminate].
  intros [= <-]. split; [lia |]. apply (nth_error_nth _ _ 0 E).
Qed.

Lemma zip_sub_length (a b : list R) :
  length a = length b -> length (zip_sub a b) = length a.
Proof.
  revert b. induction a as [| x a IH]; intros [| y b]; simpl; intros H;
    try discriminate; auto.
Qed.

Lemma zip_sub_nth (a b : list R) (i : nat) :
  length a = length b -> (i < length a)%nat ->
  nth i (zip_sub a b) 0 = nth i a 0 - nth i b 0.
Proof.
  revert b i. induction a as [| x a IH]; intros [| y b] i; simpl; intros H Hi;
    try discriminate; try lia.
  destruct i as [| i]; [reflexivity |]. apply IH; lia.
Qed.

Lemma zip_add_length (a b : list R) :
  length a = length b -> length (zip_add a b) = length a.
Proof.
  revert b. induction a as [| x a IH]; intros [| y b]; simpl; intros H;
    try discriminate; auto.
Qed.

Lemma zip_add_nth (a b : list R) (i : nat) :
  length a = length b -> (i < length a)%nat ->
  nth i (zip_add a b) 0 = nth i a 0 + nth i b 0.
Proof.
  revert b i. induction a as [| x a IH]; intros [| y b] i; simpl; intros H Hi;
    try discriminate; try lia.
  destruct i as [| i]; [reflexivity |]. apply IH; lia.
Qed.

Lemma np_sub_same_length (a b : list R) :
  length a = length b -> np_sub a b = Ok (zip_sub a b).
Proof. intros H. unfold np_sub. now rewrite H, Nat.eqb_refl. Qed.

Lemma np_add_same_length (a b : list R) :
  length a = length b -> np_add a b = Ok (zip_add a b).
Proof. intros H. unfold np_add. now rewrite H, Nat.eqb_refl. Qed.

Lemma map_nth_in_range {A : Type} (f : A -> R) (l : list A) (d : A) (i : nat) :
  (i < length l)%nat -> nth i (map f l) 0 = f (nth i l d).
Proof.
  intros Hi. rewrite (nth_indep _ 0 (f d)) by now rewrite length_map.
  apply map_nth.
Qed.

(** ** Travel times *)

Lemma travel_times_nonempty (stations : list point) (p : point) (v : R) :
  stations <> [] ->
  travel_times stations p v
  = Ok (map (fun s => norm (psub s p) / v) stations).
Proof.
  intros Hne. unfold travel_times, rows_sub.
  destruct stations as [| s rest]; [contradiction |].
  simpl. now rewrite map_map.
Qed.

Lemma travel_times_Ok (stations : list point) (p : point) (v : R)
    (t : list R) :
  travel_times stations p v = Ok t ->
  stations <> [] /\ t = map (fun s => norm (psub s p) / v) stations.
Proof.
  intros H. destruct stations as [| s rest]; [discriminate |].
  split; [discriminate |].
  rewrite travel_times_nonempty in H by discriminate. now injection H as <-.
Qed.

Lemma norm_nonneg (d : point) : 0 <= norm d.
Proof. apply sqrt_pos. Qed.

Lemma dot_self_nonneg (d : point) : 0 <= dot d d.
Proof. unfold dot. nra. Qed.

Lemma norm_sqr (d : point) : norm d * norm d = dot d d.
Proof. apply sqrt_sqrt, dot_self_nonneg. Qed.

(** ** The residual model *)

Lemma residuals_time_eq (p : point) (stations : list point)
    (rel_times : list R) (v : R) (ref_index : Z) :
  (0 <= ref_index < Z.of_nat (length stations))%Z ->
  length rel_times = length stations ->
  residuals_time p stations rel_times v ref_index
  = Ok (zip_sub
          (map (fun s => norm (psub s p) / v
                         - norm (psub (nth (Z.to_nat ref_index) stations origin) p) / v)
               stations)
          rel_times).
Proof.
  intros Href Hlen. unfold residuals_time.
  assert (Hne : stations <> []) by (destruct stations; simpl in *; [lia | discriminate]).
  rewrite (travel_times_nonempty _ _ _ Hne). cbn [bind].
  rewrite getitem_in_range by now rewrite length_map.
  cbn [bind].
  rewrite (map_nth_in_range _ _ origin) by lia.
  rewrite map_map.
  apply np_sub_same_length. now rewrite length_map.
Qed.

(** C1.  For a candidate [p], [n] stations, [n] measured relative times and a
    reference index in [[0, n)], [residuals_time] returns an array of length
    [n] whose entry [i] is
    [(|stations[i] - p| / v - |stations[ref] - p| / v) - rel_times[i]]. *)
Theorem residuals_time_entries (p : point) (stations : list point)
    (rel_times : list R) (v : R) (ref_index : Z) :
  (0 <= ref_index < Z.of_nat (length stations))%Z ->
  length rel_times = length stations ->
  exists out,
    residuals_time p stations rel_times v ref_index = Ok out /\
    length out = length stations /\
    forall i, (i < length stations)%nat ->
      nth i out 0
      = (norm (psub (nth i stations origin) p) / v
         - norm (psub (nth (Z.to_nat ref_index) stations origin) p) / v)
        - nth i rel_times 0.
Proof.
  intros Href Hlen.
  eexists. split; [apply residuals_time_eq; assumption |].
  split.
  - rewrite zip_sub_length; now rewrite length_map.
  - intros i Hi.
    rewrite zip_sub_nth by (rewrite length_map; lia).
    now rewrite (map_nth_in_range _ _ origin) by lia.
Qed.

(** ** [np.argmin] *)

Lemma argmin_from_spec (l : list R) :
  forall (a pre : list R) (best_i : nat) (best : R),
    l = pre ++ a ->
    (best_i < length pre)%nat ->
    nth best_i l 0 = best ->
    (forall j, (j < length pre)%nat -> best <= nth j l 0) ->
    (forall j, (j < best_i)%nat -> best < nth j l 0) ->
    first_min_index l (argmin_from best_i best (length pre) a).
Proof.
  induction a as [| y a IH]; intros pre best_i best Hl Hbi Hbest Hle Hlt.
  - simpl. rewrite app_nil_r in Hl. subst pre.
    repeat split; auto; intros j Hj; rewrite Hbest; auto.
  - simpl.
    assert (Hl' : l = (pre ++ [y]) ++ a) by now rewrite <- app_assoc.
    assert (Hlen : length (pre ++ [y]) = S (length pre))
      by (rewrite length_app; simpl; lia).
    assert (Hy : nth (length pre) l 0 = y).
    { rewrite Hl, app_nth2 by lia. now rewrite Nat.sub_diag. }
    destruct (Rlt_dec y best) as [Hyb | Hyb].
    + rewrite <- Hlen. apply IH; auto.
      * lia.
      * intros j Hj. rewrite Hlen in Hj.
        destruct (Nat.eq_dec j (length pre)) as [-> | Hne].
        -- rewrite Hy. lra.
        -- specialize (Hle j ltac:(lia)). lra.
      * intros j Hj. specialize (Hle j Hj). lra.
    + rewrite <- Hlen. apply IH; auto.
      * lia.
      * intros j Hj. rewrite Hlen in Hj.
        destruct (Nat.eq_dec j (length pre)) as [-> | Hne].
        -- rewrite Hy. lra.
        -- apply Hle. lia.
Qed.

Lemma argmin_Ok (a : list R) (ref : Z) :
  argmin a = Ok ref ->
  (0 <= ref)%Z /\ first_min_index a (Z.to_nat ref).
Proof.
  destruct a as [| y a]; [discriminate |].
  unfold argmin. intros [= <-]. split; [lia |].
  rewrite Nat2Z.id.
  apply (argmin_from_spec (y :: a) a [y] 0%nat y); simpl; auto.
  - intros j Hj. assert (j = 0%nat) as -> by lia. lra.
  - intros j Hj. lia.
Qed.

Lemma argmin_nonempty (a : list R) :
  a <> [] -> exists ref, argmin a = Ok ref.
Proof. destruct a; [contradiction | eexists; reflexivity]. Qed.

Lemma first_min_index_unique (a : list R) (k k' : nat) :
  first_min_index a k -> first_min_index a k' -> k = k'.
Proof.
  intros (Hk & Hle & Hlt) (Hk' & Hle' & Hlt').
  destruct (Nat.lt_trichotomy k k') as [H | [H | H]]; auto.
  - specialize (Hlt' k H). specialize (Hle k' Hk'). lra.
  - specialize (Hlt k' H). specialize (Hle' k Hk). lra.
Qed.

(** ** Relative times before noise (lines 77-81) *)

Lemma relative_to_Ok (a : list R) (ref : Z) (rel : list R) :
  (0 <= ref)%Z ->
  relative_to a ref = Ok rel ->
  (Z.to_nat ref < length a)%nat /\
  rel = map (fun t => t - nth (Z.to_nat ref) a 0) a.
Proof.
  intros Hpos. unfold relative_to.
  destruct (getitem a ref) as [r |] eqn:E; cbn [bind]; [| discriminate].
  apply getitem_Ok_nonneg in E as [Hlt Hr]; auto.
  intros [= <-]. now rewrite Hr.
Qed.

Lemma relative_to_in_range (a : list R) (ref : Z) :
  (0 <= ref < Z.of_nat (length a))%Z ->
  relative_to a ref = Ok (map (fun t => t - nth (Z.to_nat ref) a 0) a).
Proof.
  intros H. unfold relative_to. now rewrite getitem_in_range.
Qed.

(** C10.  With the true travel times [t] and [ref = argmin t], the relative
    times [t - t[ref]] computed before any noise are defined, one per station,
    nonnegative everywhere and exactly zero at [ref]. *)
Theorem pre_noise_relative_times (stations : list point) (tp : point)
    (v : R) (t : list R) (ref : Z) :
  travel_times stations tp v = Ok t ->
  argmin t = Ok ref ->
  exists rel,
    relative_to t ref = Ok rel /\
    length rel = length stations /\
    (forall i, (i < length stations)%nat ->
       nth i rel 0
       = norm (psub (nth i stations origin) tp) / v
         - norm (psub (nth (Z.to_nat ref) stations origin) tp) / v) /\
    (forall i, (i < length stations)%nat -> 0 <= nth i rel 0) /\
    nth (Z.to_nat ref) rel 0 = 0.
Proof.
  intros Ht Href.
  apply travel_times_Ok in Ht as [Hne Ht].
  apply argmin_Ok in Href as [Hpos (Hk & Hle & _)].
  assert (Hlen : length t = length stations) by (subst t; apply length_map).
  exists (map (fun u => u - nth (Z.to_nat ref) t 0) t).
  split; [apply relative_to_in_range; lia |].
  split; [now rewrite length_map |].
  assert (Hnth : forall i, (i < length stations)%nat ->
            nth i (map (fun u => u - nth (Z.to_nat ref) t 0) t) 0
            = nth i t 0 - nth (Z.to_nat ref) t 0).
  { intros i Hi. now rewrite (map_nth_in_range _ _ 0) by lia. }
  assert (Ht_nth : forall i, (i < length stations)%nat ->
            nth i t 0 = norm (psub (nth i stations origin) tp) / v).
  { intros i Hi. subst t. now rewrite (map_nth_in_range _ _ origin). }
  repeat split.
  - intros i Hi. rewrite Hnth by assumption.
    rewrite !Ht_nth by lia. reflexivity.
  - intros i Hi. rewrite Hnth by assumption.
    specialize (Hle i ltac:(lia)). lra.
  - rewrite Hnth by lia. lra.
Qed.

(** ** The random draws *)

Lemma normal_draws_length (loc scale : R) (size : nat) (g : rng) :
  length (fst (normal_draws loc scale size g)) = size.
Proof.
  revert g. induction size as [| size IH]; intros g; simpl; [reflexivity |].
  specialize (IH (mkRng (uniforms g) (fun k => normals g (S k)))).
  destruct (normal_draws loc scale size _) as [rest g2]. simpl in *. now f_equal.
Qed.

Lemma normal_draws_nth (loc scale : R) (size : nat) (g : rng) (i : nat) :
  (i < size)%nat ->
  nth i (fst (normal_draws loc scale size g)) 0 = loc + scale * normals g i.
Proof.
  revert g i. induction size as [| size IH]; intros g i Hi; [lia |].
  simpl.
  specialize (IH (mkRng (uniforms g) (fun k => normals g (S k)))).
  destruct (normal_draws loc scale size _) as [rest g2]. simpl in *.
  destruct i as [| i]; [reflexivity |].
  now rewrite IH by lia.
Qed.

Lemma gen_rows_length (count : nat) (rad : R) (g : rng) :
  length (fst (gen_rows count rad g)) = count.
Proof.
  revert g. induction count as [| count IH]; intros g; simpl; [reflexivity |].
  match goal with |- context [gen_rows count rad ?g'] => specialize (IH g') end.
  destruct (gen_rows count rad _) as [rest g4]. simpl in *. now f_equal.
Qed.

(** The state a generator is in after [k] uniform draws. *)
Lemma gen_rows_state (count : nat) (rad : R) :
  forall (g : rng) (k : nat),
    uniforms (snd (gen_rows count rad g)) k = uniforms g (3 * count + k)%nat.
Proof.
  induction count as [| count IH]; intros g k; [reflexivity |].
  simpl.
  match goal with |- context [gen_rows count rad ?g'] =>
    specialize (IH g' k); destruct (gen_rows count rad g') as [rest g4]
  end.
  simpl in *. rewrite IH. f_equal. lia.
Qed.

(** ** The generated scenario (lines 64-85) *)

(** Every local of a scenario that [main_generate] returns, in terms of the
    lines that assign it. *)
Lemma main_generate_Ok (c : config) (g entropy : rng) (sc : scenario) :
  main_generate c g entropy = Ok sc ->
  let drawn := gen_station_positions (n c) (rad c) entropy in
  let placed := gen_true_point (rad c) (dmin c) (dmax c) (snd drawn) in
  stations sc = fst drawn /\
  true_point sc = fst placed /\
  travel_times (stations sc) (true_point sc) (v c) = Ok (true_times sc) /\
  argmin (true_times sc) = Ok (ref_index sc) /\
  ~ noise_std c < 0 /\
  noise sc
  = fst (normal_draws 0 (noise_std c) (length (true_times sc)) (snd placed)) /\
  np_add (true_times sc) (noise sc) = Ok (noisy_times sc) /\
  relative_to (noisy_times sc) (ref_index sc) = Ok (measured_rel_times sc).
Proof.
  unfold main_generate, seed.
  destruct (gen_station_positions (n c) (rad c) entropy) as [st g1].
  cbv zeta. cbn [fst snd].
  destruct (gen_true_point (rad c) (dmin c) (dmax c) g1) as [tp g2].
  cbn [fst snd].
  destruct (travel_times st tp (v c)) as [t |] eqn:Et; cbn [bind];
    [| discriminate].
  destruct (argmin t) as [ref |] eqn:Eref; cbn [bind]; [| discriminate].
  unfold normal.
  destruct (Rlt_dec (noise_std c) 0) as [Hneg | Hpos]; cbn [bind];
    [discriminate |].
  destruct (np_add t (fst (normal_draws 0 (noise_std c) (length t) g2)))
    as [noisy |] eqn:En; cbn [bind]; [| discriminate].
  destruct (relative_to noisy ref) as [rel |] eqn:Er; cbn [bind];
    [| discriminate].
  intros [= <-]. simpl. repeat split; auto.
Qed.

(** The shape of a returned scenario: one entry per station in every array,
    and a reference index inside the arrays. *)
Lemma scenario_shape (c : config) (g entropy : rng) (sc : scenario) :
  main_generate c g entropy = Ok sc ->
  let m := length (stations sc) in
  length (true_times sc) = m /\ length (noise sc) = m /\
  length (noisy_times sc) = m /\ length (measured_rel_times sc) = m /\
  (0 <= ref_index sc < Z.of_nat m)%Z.
Proof.
  intros H.
  apply main_generate_Ok in H
    as (_ & _ & Ht & Href & _ & Hnoise & Hnoisy & Hrel).
  apply travel_times_Ok in Ht as [_ Ht].
  apply argmin_Ok in Href as [Hpos (Hk & _)].
  assert (Hlt : length (true_times sc) = length (stations sc))
    by (rewrite Ht; apply length_map).
  assert (Hln : length (noise sc) = length (stations sc))
    by (rewrite Hnoise, normal_draws_length; exact Hlt).
  rewrite np_add_same_length in Hnoisy by congruence.
  injection Hnoisy as Hnoisy.
  assert (Hly : length (noisy_times sc) = length (stations sc))
    by (rewrite <- Hnoisy, zip_add_length; congruence).
  apply relative_to_Ok in Hrel as [_ Hrel]; auto.
  cbv zeta. repeat split; auto; try lia.
  rewrite Hrel, length_map. exact Hly.
Qed.

(** The program validates nothing: with at least one station and a standard
    deviation that NumPy accepts, a scenario is generated. *)
Lemma main_generate_total (c : config) (g entropy : rng) :
  (1 <= n c)%Z -> 0 <= noise_std c ->
  exists sc, main_generate c g entropy = Ok sc.
Proof.
  intros Hn Hstd. unfold main_generate, seed.
  pose proof (gen_rows_length (Z.to_nat (n c)) (rad c) entropy) as Hlen.
  unfold gen_station_positions.
  destruct (gen_rows (Z.to_nat (n c)) (rad c) entropy) as [st g1].
  simpl in Hlen.
  destruct (gen_true_point (rad c) (dmin c) (dmax c) g1) as [tp g2].
  assert (Hne : st <> []) by (intros ->; simpl in Hlen; lia).
  rewrite (travel_times_nonempty _ _ _ Hne). cbn [bind].
  set (t := map (fun s => norm (psub s tp) / v c) st).
  assert (Htl : length t = length st) by apply length_map.
  destruct (argmin t) as [ref |] eqn:Eref; cbn [bind].
  2:{ destruct t; [destruct st; [contradiction | discriminate] | discriminate]. }
  apply argmin_Ok in Eref as [Hpos (Hk & _)].
  unfold normal.
  destruct (Rlt_dec (noise_std c) 0) as [Hneg | _]; [lra |]. cbn [bind].
  rewrite np_add_same_length by now rewrite normal_draws_length.
  cbn [bind].
  rewrite relative_to_in_range.
  2:{ rewrite zip_add_length by now rewrite normal_draws_length. lia. }
  cbn [bind]. eexists. reflexivity.
Qed.

Lemma gen_rows_normals (count : nat) (rad : R) (g : rng) (k : nat) :
  normals (snd (gen_rows count rad g)) k = normals g k.
Proof.
  revert g. induction count as [| count IH]; intros g; simpl; [reflexivity |].
  match goal with |- context [gen_rows count rad ?g'] => specialize (IH g') end.
  destruct (gen_rows count rad _) as [rest g4]. simpl in *. exact IH.
Qed.

Lemma gen_true_point_normals (rad dmin dmax : R) (g : rng) (k : nat) :
  normals (snd (gen_true_point rad dmin dmax g)) k = normals g k.
Proof. reflexivity. Qed.

(** The measured relative time of the reference station is its own noisy
    time minus itself. *)
Lemma measured_at_reference (c : config) (g entropy : rng) (sc : scenario) :
  main_generate c g entropy = Ok sc ->
  getitem (measured_rel_times sc) (ref_index sc) = Ok 0.
Proof.
  intros H.
  pose proof (scenario_shape _ _ _ _ H) as (_ & _ & Hly & Hlm & Href).
  apply main_generate_Ok in H as (_ & _ & _ & _ & _ & _ & _ & Hrel).
  apply relative_to_Ok in Hrel as [Hlt Hrel]; [| lia].
  rewrite getitem_in_range by lia.
  rewrite Hrel, (map_nth_in_range _ _ 0) by lia.
  f_equal. lra.
Qed.

(** C3.  In every generated scenario the reference index is the first argmin
    of the true travel times [|stations[i] - true_point| / v]; the noise, one
    normal draw of mean 0 and deviation [noise_std] per station, is added to
    the travel times; and the measured relative time of station [i] is its
    noisy travel time minus the noisy travel time of the reference station. *)
Theorem generated_scenario_times (c : config) (g entropy : rng)
    (sc : scenario) :
  main_generate c g entropy = Ok sc ->
  let m := length (stations sc) in
  let t i := norm (psub (nth i (stations sc) origin) (true_point sc)) / v c in
  let ref := Z.to_nat (ref_index sc) in
  (0 <= ref_index sc)%Z /\
  ((ref < m)%nat /\
   (forall j, (j < m)%nat -> t ref <= t j) /\
   (forall j, (j < ref)%nat -> t ref < t j)) /\
  (forall i, (i < m)%nat ->
     nth i (noise sc) 0 = 0 + noise_std c * normals entropy i) /\
  (forall i, (i < m)%nat ->
     nth i (noisy_times sc) 0 = t i + nth i (noise sc) 0) /\
  length (measured_rel_times sc) = m /\
  (forall i, (i < m)%nat ->
     nth i (measured_rel_times sc) 0
     = nth i (noisy_times sc) 0 - nth ref (noisy_times sc) 0).
Proof.
  intros H.
  pose proof (scenario_shape _ _ _ _ H) as (Hlt & Hln & Hly & Hlm & Href).
  apply main_generate_Ok in H
    as (Hst & Htp & Ht & Hargmin & _ & Hnoise & Hnoisy & Hrel).
  apply travel_times_Ok in Ht as [_ Ht].
  apply argmin_Ok in Hargmin as [Hpos (Hk & Hle & Hfirst)].
  assert (Ht_nth : forall i, (i < length (stations sc))%nat ->
            nth i (true_times sc) 0
            = norm (psub (nth i (stations sc) origin) (true_point sc)) / v c).
  { intros i Hi. rewrite Ht. now rewrite (map_nth_in_range _ _ origin). }
  cbv zeta. split; [exact Hpos |]. split; [| split; [| split; [| split]]].
  - split; [lia |]. split.
    + intros j Hj. rewrite <- !Ht_nth by lia. apply Hle. lia.
    + intros j Hj. rewrite <- !Ht_nth by lia. now apply Hfirst.
  - intros i Hi. rewrite Hnoise, normal_draws_nth by lia.
    rewrite gen_true_point_normals. unfold gen_station_positions.
    now rewrite gen_rows_normals.
  - intros i Hi.
    rewrite np_add_same_length in Hnoisy by congruence.
    injection Hnoisy as <-.
    rewrite zip_add_nth by lia. now rewrite Ht_nth.
  - exact Hlm.
  - intros i Hi.
    apply relative_to_Ok in Hrel as [_ Hrel]; auto.
    rewrite Hrel. now rewrite (map_nth_in_range _ _ 0) by lia.
Qed.

(** C5, as the code has it.  For every noise realisation, the measured
    relative time at the reference index is exactly zero: line 85 subtracts
    the reference station's noisy time from itself. *)
Theorem reference_relative_time_is_zero (c : config) (g entropy : rng)
    (sc : scenario) :
  main_generate c g entropy = Ok sc ->
  getitem (measured_rel_times sc) (ref_index sc) = Ok 0 /\
  nth (Z.to_nat (ref_index sc)) (measured_rel_times sc) 0 = 0.
Proof.
  intros H. pose proof (measured_at_reference _ _ _ _ H) as H0.
  split; [exact H0 |].
  pose proof (scenario_shape _ _ _ _ H) as (_ & _ & _ & _ & Href).
  apply getitem_Ok_nonneg in H0 as [_ H0]; [exact H0 | lia].
Qed.

(** C5, as the spec states it, fails: no configuration, generator state and
    noise realisation give a nonzero measured relative time at the reference
    index. *)
Lemma no_nonzero_reference_time :
  ~ (exists (c : config) (g entropy : rng) (sc : scenario),
       0 < noise_std c /\
       main_generate c g entropy = Ok sc /\
       getitem (measured_rel_times sc) (ref_index sc) <> Ok 0).
Proof.
  intros (c & g & entropy & sc & _ & H & Hne).
  apply Hne. exact (measured_at_reference _ _ _ _ H).
Qed.

(** ** The random source (lines 14-34 and 64) *)

Lemma same_draws_weaken (nu nn nu' nn' : nat) (g g' : rng) :
  (nu' <= nu)%nat -> (nn' <= nn)%nat ->
  same_draws nu nn g g' -> same_draws nu' nn' g g'.
Proof.
  intros Hu Hn [Hsu Hsn]. split; intros k Hk; [apply Hsu | apply Hsn]; lia.
Qed.

(** A station takes three uniform draws. *)
Lemma gen_rows_same_draws (count : nat) (rad : R) :
  forall (g g' : rng) (nu nn : nat),
    same_draws (3 * count + nu) nn g g' ->
    fst (gen_rows count rad g) = fst (gen_rows count rad g') /\
    same_draws nu nn (snd (gen_rows count rad g)) (snd (gen_rows count rad g')).
Proof.
  induction count as [| count IH]; intros g g' nu nn Hs.
  - simpl in *. split; [reflexivity | exact Hs].
  - destruct Hs as [Hu Hn]. simpl.
    match goal with
    | |- context [gen_rows count rad ?a] =>
        match goal with
        | |- context [gen_rows count rad ?b] =>
            lazymatch a with
            | context [g] =>
                lazymatch b with
                | context [g'] => specialize (IH a b nu nn)
                end
            end
        end
    end.
    destruct IH as [IHf IHs].
    { split; simpl; intros k Hk; [apply Hu | apply Hn]; lia. }
    destruct (gen_rows count rad _) as [rest g4].
    destruct (gen_rows count rad _) as [rest' g4'].
    simpl in *. subst rest'.
    rewrite (Hu 0%nat), (Hu 1%nat), (Hu 2%nat) by lia.
    split; [reflexivity | exact IHs].
Qed.

Lemma gen_true_point_same_draws (rad dmin dmax : R) (g g' : rng)
    (nu nn : nat) :
  same_draws (3 + nu) nn g g' ->
  fst (gen_true_point rad dmin dmax g) = fst (gen_true_point rad dmin dmax g') /\
  same_draws nu nn (snd (gen_true_point rad dmin dmax g))
    (snd (gen_true_point rad dmin dmax g')).
Proof.
  intros [Hu Hn]. simpl.
  rewrite (Hu 0%nat), (Hu 1%nat), (Hu 2%nat) by lia.
  split; [reflexivity |].
  split; simpl; intros k Hk; [apply Hu | apply Hn]; lia.
Qed.

Lemma normal_draws_same_draws (loc scale : R) (size : nat) :
  forall (g g' : rng) (nu : nat),
    same_draws nu size g g' ->
    fst (normal_draws loc scale size g) = fst (normal_draws loc scale size g').
Proof.
  induction size as [| size IH]; intros g g' nu [Hu Hn]; [reflexivity |].
  simpl.
  specialize (IH (mkRng (uniforms g) (fun k => normals g (S k)))
                 (mkRng (uniforms g') (fun k => normals g' (S k))) nu).
  destruct (normal_draws loc scale size _) as [rest g2].
  destruct (normal_draws loc scale size _) as [rest' g2'].
  simpl in *. rewrite (Hn 0%nat) by lia. f_equal. apply IH.
  split; simpl; intros k Hk; [apply Hu | apply Hn]; lia.
Qed.

(** The scenario is a function of the draws that the reseeded generator
    yields: three uniform draws per station, three for the true point, one
    normal draw per station.  The state [np.random] had before the run plays
    no part. *)
Lemma main_generate_same_draws (c : config) (g g' entropy entropy' : rng) :
  same_draws (3 * Z.to_nat (n c) + 3) (Z.to_nat (n c)) entropy entropy' ->
  main_generate c g entropy = main_generate c g' entropy'.
Proof.
  intros Hs. unfold main_generate, seed, gen_station_positions.
  pose proof (gen_rows_length (Z.to_nat (n c)) (rad c) entropy) as Hlen.
  destruct (gen_rows_same_draws _ (rad c) _ _ _ _ Hs) as [Hst Hs1].
  destruct (gen_rows (Z.to_nat (n c)) (rad c) entropy) as [st g1].
  destruct (gen_rows (Z.to_nat (n c)) (rad c) entropy') as [st' g1'].
  simpl in Hst, Hs1, Hlen. subst st'.
  destruct (gen_true_point_same_draws (rad c) (dmin c) (dmax c) _ _ _ _ Hs1)
    as [Htp Hs2].
  destruct (gen_true_point (rad c) (dmin c) (dmax c) g1) as [tp g2].
  destruct (gen_true_point (rad c) (dmin c) (dmax c) g1') as [tp' g2'].
  simpl in Htp, Hs2. subst tp'.
  destruct (travel_times st tp (v c)) as [t |] eqn:Et; cbn [bind];
    [| reflexivity].
  destruct (argmin t) as [ref |]; cbn [bind]; [| reflexivity].
  unfold normal.
  destruct (Rlt_dec (noise_std c) 0); cbn [bind]; [reflexivity |].
  apply travel_times_Ok in Et as [_ Et].
  assert (Hlt : length t = Z.to_nat (n c))
    by (rewrite Et, length_map; exact Hlen).
  rewrite Hlt.
  now rewrite (normal_draws_same_draws 0 (noise_std c) _ g2 g2' 0%nat Hs2).
Qed.

(** C8, as the code has it.  The generator takes no random source: it draws
    from NumPy's process-wide generator, which [main] reseeds from operating
    system entropy.  Two runs produce identical stations, true point,
    reference index and measured relative times when the reseeded generator
    yields the same draws; the state a caller had set beforehand is
    discarded. *)
Theorem scenario_determined_by_entropy (c : config)
    (g g' entropy entropy' : rng) :
  same_draws (3 * Z.to_nat (n c) + 3) (Z.to_nat (n c)) entropy entropy' ->
  main_generate c g entropy = main_generate c g' entropy' /\
  fst (gen_station_positions (n c) (rad c) entropy)
  = fst (gen_station_positions (n c) (rad c) entropy').
Proof.
  intros Hs. split; [now apply main_generate_same_draws |].
  unfold gen_station_positions.
  apply (gen_rows_same_draws _ _ _ _ 3%nat (Z.to_nat (n c))).
  exact Hs.
Qed.

Lemma gen_rows_head (count : nat) (rad : R) (g : rng) :
  pz (nth 0 (fst (gen_rows (S count) rad g)) origin)
  = -500 + (500 - -500) * uniforms g 2.
Proof.
  simpl. destruct (gen_rows count rad _) as [rest g4]. reflexivity.
Qed.

(** C8, as the spec states it, fails: with the same state injected before the
    run, two runs that receive different entropy place their stations
    differently. *)
Lemma same_seed_different_scenarios :
  main_generate main_config (constant_rng 0) (constant_rng 0)
  <> main_generate main_config (constant_rng 0) (constant_rng (1 / 4)).
Proof.
  destruct (main_generate_total main_config (constant_rng 0) (constant_rng 0))
    as [sc0 H0]; [simpl; lia | simpl; lra |].
  destruct (main_generate_total main_config (constant_rng 0)
              (constant_rng (1 / 4))) as [sc1 H1]; [simpl; lia | simpl; lra |].
  rewrite H0, H1. intros [= Heq].
  apply main_generate_Ok in H0 as (Hst0 & _).
  apply main_generate_Ok in H1 as (Hst1 & _).
  assert (Hz : pz (nth 0 (stations sc0) origin)
               = pz (nth 0 (stations sc1) origin)) by now rewrite Heq.
  rewrite Hst0, Hst1 in Hz. unfold gen_station_positions in Hz.
  change (Z.to_nat (n main_config)) with 7%nat in Hz.
  rewrite !gen_rows_head in Hz. simpl in Hz. lra.
Qed.

(** ** Configurations (lines 64-85) *)

Lemma main_generate_no_station (c : config) (g entropy : rng) :
  (n c <= 0)%Z -> main_generate c g entropy = Raise ValueError.
Proof.
  intros Hn. unfold main_generate, seed, gen_station_positions.
  replace (Z.to_nat (n c)) with 0%nat by lia. reflexivity.
Qed.

(** C7, as the code has it.  No configuration is rejected as invalid.  With
    at least one station, a nonnegative noise deviation and a speed other
    than zero, the program generates the scenario from the values it is
    given, whatever the sign of [v], however few the stations and whatever
    the order of the depth bounds: [n] stations, the depth
    [-(dmin + (dmax - dmin) * u)], where [u] is the third uniform draw after
    the [3 n] draws of the stations, and the travel times
    [|stations[i] - true_point| / v]. *)
Theorem configuration_not_validated (c : config) (g entropy : rng) :
  (1 <= n c)%Z -> 0 <= noise_std c -> v c <> 0 ->
  exists sc,
    main_generate c g entropy = Ok sc /\
    length (stations sc) = Z.to_nat (n c) /\
    pz (true_point sc)
    = - (dmin c
         + (dmax c - dmin c) * uniforms entropy (3 * Z.to_nat (n c) + 2)%nat) /\
    (forall i, (i < length (stations sc))%nat ->
       nth i (true_times sc) 0
       = norm (psub (nth i (stations sc) origin) (true_point sc)) / v c).
Proof.
  intros Hn Hstd _.
  destruct (main_generate_total c g entropy Hn Hstd) as [sc H].
  exists sc. split; [exact H |].
  apply main_generate_Ok in H as (Hst & Htp & Ht & _).
  split; [| split].
  - rewrite Hst. apply gen_rows_length.
  - rewrite Htp. unfold gen_station_positions, gen_true_point, uniform, rand.
    cbn [fst snd pz uniforms].
    now rewrite gen_rows_state.
  - intros i Hi. apply travel_times_Ok in Ht as [_ Ht].
    rewrite Ht. now rewrite (map_nth_in_range _ _ origin).
Qed.

(** C7, as the spec states it, fails: a configuration with a negative speed,
    three stations and [dmin > dmax] yields a scenario, not an error. *)
Lemma invalid_configuration_accepted :
  (v invalid_config <= 0 /\ (n invalid_config < 4)%Z /\
   dmin invalid_config > dmax invalid_config) /\
  exists sc,
    main_generate invalid_config (constant_rng 0) (constant_rng (1 / 4))
    = Ok sc.
Proof.
  split.
  - unfold invalid_config. cbn [v n dmin dmax].
    split; [lra |]. split; [lia | lra].
  - apply main_generate_total; unfold invalid_config; cbn [n noise_std];
      [lia | lra].
Qed.

(** ** The initial guess (lines 97-99) *)

Lemma fold_left_padd (l : list point) (acc : point) :
  fold_left padd l acc
  = mkPoint (px acc + fold_right Rplus 0 (map px l))
      (py acc + fold_right Rplus 0 (map py l))
      (pz acc + fold_right Rplus 0 (map pz l)).
Proof.
  revert acc. induction l as [| s l IH]; intros acc; simpl.
  - destruct acc; simpl. f_equal; lra.
  - rewrite IH. simpl. f_equal; lra.
Qed.

(** C9.  The initial guess of the solve step has for [x] and [y] the mean of
    the stations' [x] and [y] coordinates and for [z] the depth -5000, and it
    is the start point that the least-squares routine receives. *)
Theorem initial_guess_centroid (stations : list point) :
  stations <> [] ->
  exists p0,
    initial_guess stations = Ok p0 /\
    px p0 = fold_right Rplus 0 (map px stations) / INR (length stations) /\
    py p0 = fold_right Rplus 0 (map py stations) / INR (length stations) /\
    pz p0 = -5000 /\
    forall (least_squares : solver) (rel_times : list R) (v : R) (ref : Z),
      main_solve least_squares stations rel_times v ref
      = (res_opt <- least_squares (objective stations rel_times v ref) p0 ;;
         Ok (x res_opt)).
Proof.
  intros Hne. unfold main_solve, initial_guess, mean_rows, sum_rows.
  destruct stations as [| s rest]; [contradiction |].
  cbn [bind]. eexists. split; [reflexivity |].
  rewrite fold_left_padd. cbn [px py pz origin].
  repeat split; try (f_equal; lra).
Qed.

(** ** Least-squares solutions *)

Lemma sum_squares_nonneg (r : list R) : 0 <= sum_squares r.
Proof. induction r as [| e r IH]; simpl; [lra | nra]. Qed.

Lemma cost_nonneg (f : point -> res (list R)) (p : point) (c : R) :
  cost f p = Ok c -> 0 <= c.
Proof.
  unfold cost. destruct (f p) as [r |]; cbn [bind]; [| discriminate].
  intros [= <-]. pose proof (sum_squares_nonneg r). lra.
Qed.

Lemma zero_cost_solution (f : point -> res (list R)) (p : point) :
  cost f p = Ok 0 -> least_squares_solution f p.
Proof.
  intros H. exists 0. split; [exact H |].
  intros q c' Hq. now apply cost_nonneg in Hq.
Qed.


(** Two lists of reals, equal entry by entry. *)
Ltac list_lra :=
  repeat (apply (f_equal2 (@cons R)); [lra |]); try reflexivity.

Lemma norm_eq (d : point) (k : R) : 0 <= k -> dot d d = k * k -> norm d = k.
Proof. intros Hk Hd. unfold norm. rewrite Hd. now apply sqrt_square. Qed.

(** ** Degenerate station geometry (lines 97-104) *)



(** Distances in the collinear example. *)
Lemma collinear_example_distances (p : point) :
  p = collinear_source \/ p = collinear_ghost ->
  norm (psub (mkPoint 5000 0 0) p) = 13000 /\
  norm (psub (mkPoint 9000 0 0) p) = 15000 /\
  norm (psub (mkPoint 16000 0 0) p) = 20000.
Proof.
  intros [-> | ->]; repeat split; apply norm_eq; try lra;
    unfold dot, psub, collinear_source, collinear_ghost; cbn [px py pz]; lra.
Qed.

(** The exact data of the collinear example: travel times 2.6, 3 and 4 s,
    station 0 first. *)
Lemma collinear_example_times :
  travel_times collinear_stations collinear_source 5000
  = Ok [13000 / 5000; 15000 / 5000; 20000 / 5000] /\
  argmin [13000 / 5000; 15000 / 5000; 20000 / 5000] = Ok 0%Z /\
  relative_to [13000 / 5000; 15000 / 5000; 20000 / 5000] 0
  = Ok collinear_rel_times.
Proof.
  destruct (collinear_example_distances collinear_source (or_introl eq_refl))
    as (H0 & H1 & H2).
  split; [| split].
  - rewrite travel_times_nonempty by discriminate.
    unfold collinear_stations. cbn [map]. now rewrite H0, H1, H2.
  - unfold argmin, argmin_from.
    destruct (Rlt_dec (15000 / 5000) (13000 / 5000)) as [H | _]; [lra |].
    destruct (Rlt_dec (20000 / 5000) (13000 / 5000)) as [H | _]; [lra |].
    reflexivity.
  - rewrite relative_to_in_range by (simpl; lia).
    unfold collinear_rel_times. cbn [map nth Z.to_nat].
    apply f_equal. list_lra.
Qed.






(** ** Shifted times (lines 36-42 and 85-104) *)


(** An index outside [[-n, n)] is an [IndexError]; an index in [[-n, 0)]
    counts from the end. *)
Lemma getitem_out_of_range (a : list R) (i : Z) :
  (i < - Z.of_nat (length a) \/ Z.of_nat (length a) <= i)%Z ->
  getitem a i = Raise IndexError.
Proof.
  intros Hi. unfold getitem.
  destruct (Z.ltb_spec i 0) as [Hneg | Hpos].
  - destruct (Z.ltb_spec (i + Z.of_nat (length a)) 0) as [H | H];
      [reflexivity | lia].
  - destruct (Z.ltb_spec i 0) as [H | _]; [lia |].
    destruct (Z.leb_spec (Z.of_nat (length a)) i) as [H | H];
      [reflexivity | lia].
Qed.

Lemma getitem_negative (a : list R) (i : Z) :
  (- Z.of_nat (length a) <= i < 0)%Z ->
  getitem a i = getitem a (i + Z.of_nat (length a)).
Proof.
  intros Hi.
  assert (E1 : (i <? 0)%Z = true) by (apply Z.ltb_lt; lia).
  assert (E2 : (i + Z.of_nat (length a) <? 0)%Z = false)
    by (apply Z.ltb_ge; lia).
  unfold getitem. cbv zeta. now rewrite E1, !E2.
Qed.

Lemma residuals_time_out_of_range (p : point) (stations : list point)
    (rel_times : list R) (v : R) (ref_index : Z) :
  stations <> [] ->
  (ref_index < - Z.of_nat (length stations)
   \/ Z.of_nat (length stations) <= ref_index)%Z ->
  residuals_time p stations rel_times v ref_index = Raise IndexError.
Proof.
  intros Hne Href. unfold residuals_time.
  rewrite (travel_times_nonempty _ _ _ Hne). cbn [bind].
  rewrite getitem_out_of_range; [reflexivity | now rewrite length_map].
Qed.

Lemma residuals_time_negative (p : point) (stations : list point)
    (rel_times : list R) (v : R) (ref_index : Z) :
  (- Z.of_nat (length stations) <= ref_index < 0)%Z ->
  residuals_time p stations rel_times v ref_index
  = residuals_time p stations rel_times v
      (ref_index + Z.of_nat (length stations)).
Proof.
  intros Href. unfold residuals_time.
  destruct (travel_times stations p v) as [t |] eqn:Et; cbn [bind];
    [| reflexivity].
  apply travel_times_Ok in Et as [_ Et].
  assert (Hlen : length t = length stations) by (rewrite Et; apply length_map).
  rewrite getitem_negative by (rewrite Hlen; lia).
  now rewrite Hlen.
Qed.








(** ** Zero noise (lines 77-85 and 97-104) *)

Lemma zip_add_zero_noise (size : nat) :
  forall (g : rng) (a : list R),
    length a = size -> zip_add a (fst (normal_draws 0 0 size g)) = a.
Proof.
  induction size as [| size IH]; intros g a Hlen.
  - destruct a; [reflexivity | discriminate].
  - destruct a as [| y a]; [discriminate |]. simpl.
    specialize (IH (mkRng (uniforms g) (fun k => normals g (S k))) a).
    destruct (normal_draws 0 0 size _) as [rest g2]. simpl in *.
    rewrite IH by lia. f_equal. lra.
Qed.

Lemma zip_sub_map {A : Type} (f h : A -> R) (l : list A) :
  zip_sub (map f l) (map h l) = map (fun s => f s - h s) l.
Proof. induction l as [| s l IH]; simpl; [reflexivity | now rewrite IH]. Qed.

(** Without noise the measured relative times are the true ones. *)
Lemma zero_noise_measured (c : config) (g entropy : rng) (sc : scenario) :
  noise_std c = 0 ->
  main_generate c g entropy = Ok sc ->
  relative_to (true_times sc) (ref_index sc) = Ok (measured_rel_times sc).
Proof.
  intros Hstd H.
  pose proof (scenario_shape _ _ _ _ H) as (Hlt & Hln & _).
  apply main_generate_Ok in H as (_ & _ & _ & _ & _ & Hnoise & Hnoisy & Hrel).
  rewrite np_add_same_length in Hnoisy by congruence.
  injection Hnoisy as Hnoisy.
  rewrite Hnoise, Hstd, zip_add_zero_noise in Hnoisy by reflexivity.
  now rewrite Hnoisy.
Qed.

(** The residuals of a point on its own exact relative times are zero. *)
Lemma exact_times_zero_residuals (stations : list point) (tp : point)
    (v : R) (t rel : list R) (ref : Z) :
  travel_times stations tp v = Ok t ->
  (0 <= ref)%Z ->
  relative_to t ref = Ok rel ->
  objective stations rel v ref tp = Ok (map (fun _ => 0) stations).
Proof.
  intros Ht Hpos Hrel.
  apply travel_times_Ok in Ht as [Hne Ht].
  apply relative_to_Ok in Hrel as [Hlt Hrel]; auto.
  assert (Hlen : length t = length stations) by (rewrite Ht; apply length_map).
  unfold objective. rewrite residuals_time_eq.
  - f_equal. rewrite Hrel, Ht, map_map, zip_sub_map.
    apply map_ext. intros s.
    rewrite (map_nth_in_range _ _ origin) by lia. lra.
  - lia.
  - rewrite Hrel, length_map. exact Hlen.
Qed.

Lemma sum_squares_zeros {A : Type} (l : list A) :
  sum_squares (map (fun _ => 0) l) = 0.
Proof. induction l as [| s l IH]; simpl; [reflexivity | rewrite IH; lra]. Qed.

(** C2, as the code has it.  With [noise_std = 0] the measured relative times
    are the true ones, the true point has zero residuals on them, and so it
    minimises the sum of squared residuals that the least-squares routine is
    given. *)
Theorem zero_noise_true_point_fits (c : config) (g entropy : rng)
    (sc : scenario) :
  noise_std c = 0 ->
  main_generate c g entropy = Ok sc ->
  relative_to (true_times sc) (ref_index sc) = Ok (measured_rel_times sc) /\
  objective (stations sc) (measured_rel_times sc) (v c) (ref_index sc)
    (true_point sc)
  = Ok (map (fun _ => 0) (stations sc)) /\
  least_squares_solution
    (objective (stations sc) (measured_rel_times sc) (v c) (ref_index sc))
    (true_point sc).
Proof.
  intros Hstd H.
  pose proof (zero_noise_measured _ _ _ _ Hstd H) as Hrel.
  pose proof (scenario_shape _ _ _ _ H) as (_ & _ & _ & _ & Href).
  pose proof H as H'.
  apply main_generate_Ok in H' as (_ & _ & Ht & _).
  assert (Hzero : objective (stations sc) (measured_rel_times sc) (v c)
                    (ref_index sc) (true_point sc)
                  = Ok (map (fun _ => 0) (stations sc))).
  { apply (exact_times_zero_residuals _ _ _ (true_times sc)); auto. lia. }
  split; [exact Hrel |]. split; [exact Hzero |].
  apply zero_cost_solution. unfold cost. rewrite Hzero. cbn [bind].
  rewrite sum_squares_zeros. f_equal. lra.
Qed.

(** Distances in the twin example. *)
Lemma twin_distances (p : point) (off : R) :
  (p = twin_near /\ off = 0) \/ (p = twin_far /\ off = 3750) ->
  norm (psub (mkPoint (9375 / 4) 0 0) p) = 8125 / 4 + off /\
  norm (psub (mkPoint (10875 / 4) 2100 (-300)) p) = 10625 / 4 + off /\
  norm (psub (mkPoint (10875 / 4) (-1575) 225) p) = 10625 / 4 + off /\
  norm (psub (mkPoint 4875 5760 (-195)) p) = 6250 + off.
Proof.
  intros [[-> ->] | [-> ->]]; repeat split; apply norm_eq; try lra;
    unfold dot, psub, twin_near, twin_far; cbn [px py pz]; lra.
Qed.

(** Both sources of the twin example produce [twin_rel_times]. *)
Lemma twin_times (p : point) :
  p = twin_near \/ p = twin_far ->
  exists t,
    travel_times twin_stations p 5000 = Ok t /\
    argmin t = Ok 0%Z /\
    relative_to t 0 = Ok twin_rel_times.
Proof.
  intros Hp.
  assert (Hoff : exists off, (off = 0 \/ off = 3750) /\
            ((p = twin_near /\ off = 0) \/ (p = twin_far /\ off = 3750))).
  { destruct Hp as [-> | ->]; [exists 0 | exists 3750]; split; auto. }
  destruct Hoff as (off & Hoff & Hcase).
  destruct (twin_distances p off Hcase) as (H0 & H1 & H2 & H3).
  eexists. split; [apply travel_times_nonempty; discriminate |].
  unfold twin_stations. cbn [map]. rewrite H0, H1, H2, H3.
  split.
  - unfold argmin, argmin_from.
    destruct (Rlt_dec ((10625 / 4 + off) / 5000) ((8125 / 4 + off) / 5000))
      as [H | _]; [lra |].
    destruct (Rlt_dec ((6250 + off) / 5000) ((8125 / 4 + off) / 5000))
      as [H | _]; [lra |].
    reflexivity.
  - rewrite relative_to_in_range by (simpl; lia).
    unfold twin_rel_times. cbn [map nth Z.to_nat].
    apply f_equal. list_lra.
Qed.

Lemma twin_not_coplanar : ~ coplanar twin_stations.
Proof.
  intros (a & nvec & Hn & Hall). apply Hn.
  unfold twin_stations in Hall.
  inversion Hall as [| ? ? H0 Hall0]; subst.
  inversion Hall0 as [| ? ? H1 Hall1]; subst.
  inversion Hall1 as [| ? ? H2 Hall2]; subst.
  inversion Hall2 as [| ? ? H3 _]; subst.
  unfold in_plane, dot, psub in *. cbn [px py pz] in *.
  assert (Hx : px nvec = 0) by lra.
  assert (Hy : py nvec = 0) by lra.
  assert (Hz : pz nvec = 0) by lra.
  rewrite Hx, Hy, Hz. lra.
Qed.

(** A point within one metre of [q] has its [x] coordinate within one metre
    of that of [q]. *)
Lemma norm_bounds_px (p q : point) :
  norm (psub p q) <= 1 -> px q - 1 <= px p <= px q + 1.
Proof.
  intros H.
  pose proof (norm_nonneg (psub p q)) as Hpos.
  pose proof (norm_sqr (psub p q)) as Hsq.
  set (d := norm (psub p q)) in *. clearbody d.
  unfold dot, psub in Hsq. cbn [px py pz] in Hsq.
  assert (Hdd : d * d <= 1) by nra.
  pose proof (Rle_0_sqr (py p - py q)) as Hy.
  pose proof (Rle_0_sqr (pz p - pz q)) as Hz.
  unfold Rsqr in Hy, Hz.
  set (dx := px p - px q) in *.
  assert (Hx : dx * dx <= 1) by lra.
  assert (Hdx : -1 <= dx <= 1) by (split; nra).
  unfold dx in Hdx. lra.
Qed.

(** The relative times and the reference index that lines 77-85 form without
    noise from either source of the twin example. *)
Lemma twin_synthesis (p : point) (t rel : list R) (ref : Z) :
  p = twin_near \/ p = twin_far ->
  travel_times twin_stations p 5000 = Ok t ->
  argmin t = Ok ref ->
  relative_to t ref = Ok rel ->
  ref = 0%Z /\ rel = twin_rel_times.
Proof.
  intros Hp Ht Href Hrel.
  destruct (twin_times p Hp) as (t' & Ht' & Href' & Hrel').
  rewrite Ht in Ht'. injection Ht' as <-.
  rewrite Href in Href'. injection Href' as ->.
  rewrite Hrel in Hrel'. injection Hrel' as ->.
  split; reflexivity.
Qed.

(** C2, as the spec states it, fails: a valid configuration, four stations
    that are not coplanar, and two true points 6250 m apart from which lines
    77-85 form the same measured relative times and the same reference index
    without noise.  The solve step receives the same arguments for both, so
    whatever the least-squares routine is, its estimate is not within one
    metre of each of them. *)
Lemma twin_sources_share_estimate :
  ((length twin_stations = 4)%nat /\ ~ coplanar twin_stations) /\
  estimation_error twin_near twin_far = 6250 /\
  ~ (exists least_squares : solver,
       zero_noise_recovery least_squares twin_stations 5000 twin_near 1 /\
       zero_noise_recovery least_squares twin_stations 5000 twin_far 1).
Proof.
  split; [split; [reflexivity | exact twin_not_coplanar] |].
  split.
  - unfold estimation_error. apply norm_eq; [lra |].
    unfold dot, psub, twin_near, twin_far. cbn [px py pz]. lra.
  - intros (least_squares & Hnear & Hfar).
    destruct Hnear as (t1 & ref1 & rel1 & est1 & Ht1 & Hr1 & Hrel1 & Hs1 & He1).
    destruct Hfar as (t2 & ref2 & rel2 & est2 & Ht2 & Hr2 & Hrel2 & Hs2 & He2).
    destruct (twin_synthesis twin_near t1 rel1 ref1) as [-> ->]; auto.
    destruct (twin_synthesis twin_far t2 rel2 ref2) as [-> ->]; auto.
    rewrite Hs1 in Hs2. injection Hs2 as <-.
    unfold estimation_error in He1, He2.
    apply norm_bounds_px in He1. apply norm_bounds_px in He2.
    unfold twin_near, twin_far in *. cbn [px] in *. lra.
Qed.

(** ** The whole run (lines 64-104) *)

(** A run of [main] that returns is a generated scenario followed by the
    solve step on its stations, measured relative times and reference
    index. *)
Lemma main_Ok (least_squares : solver) (g entropy : rng) (sc : scenario)
    (est_point : point) :
  main least_squares g entropy = Ok (sc, est_point) ->
  main_generate main_config g entropy = Ok sc /\
  main_solve least_squares (stations sc) (measured_rel_times sc) 5000
    (ref_index sc) = Ok est_point.
Proof.
  unfold main.
  destruct (main_generate main_config g entropy) as [sc' |]; cbn [bind];
    [| discriminate].
  change (v main_config) with 5000.
  destruct (main_solve least_squares (stations sc') (measured_rel_times sc')
              5000 (ref_index sc')) as [est |] eqn:Hest; cbn [bind];
    [| discriminate].
  intros [= <- <-]. split; [reflexivity | exact Hest].
Qed.

(** * Further properties *)

(** ** The residual model: failures, negative indices, broadcasting *)

Lemma getitem_wrap (a : list R) (i : Z) :
  (- Z.of_nat (length a) <= i < Z.of_nat (length a))%Z ->
  getitem a i = Ok (nth (Z.to_nat (i mod Z.of_nat (length a))) a 0).
Proof.
  intros Hi. destruct (Z_lt_le_dec i 0) as [Hneg | Hpos].
  - rewrite getitem_negative by lia.
    rewrite getitem_in_range by lia.
    replace (i mod Z.of_nat (length a))%Z with (i + Z.of_nat (length a))%Z;
      [reflexivity |].
    apply Z.mod_unique with (q := (-1)%Z); lia.
  - rewrite getitem_in_range by lia.
    now rewrite Z.mod_small by lia.
Qed.

Lemma travel_times_length (stations : list point) (p : point) (v : R)
    (t : list R) :
  travel_times stations p v = Ok t -> length t = length stations.
Proof.
  intros H. apply travel_times_Ok in H as [_ ->]. apply length_map.
Qed.

(** The predicted relative times: what [residuals_time] subtracts the
    measured ones from, with station [k] as the reference. *)
Lemma residuals_time_wrap (p : point) (stations : list point)
    (rel_times : list R) (v : R) (ref_index : Z) :
  stations <> [] ->
  (- Z.of_nat (length stations) <= ref_index < Z.of_nat (length stations))%Z ->
  residuals_time p stations rel_times v ref_index
  = np_sub
      (map (fun s =>
              norm (psub s p) / v
              - norm (psub (nth (Z.to_nat
                                   (ref_index mod Z.of_nat (length stations)))
                              stations origin) p) / v)
         stations)
      rel_times.
Proof.
  intros Hne Href. unfold residuals_time.
  rewrite (travel_times_nonempty _ _ _ Hne). cbn [bind].
  rewrite getitem_wrap by now rewrite length_map.
  cbn [bind]. rewrite length_map.
  assert (Hk : (Z.to_nat (ref_index mod Z.of_nat (length stations))
                < length stations)%nat).
  { pose proof (Z.mod_pos_bound ref_index (Z.of_nat (length stations))). lia. }
  rewrite (map_nth_in_range _ _ origin) by exact Hk.
  now rewrite map_map.
Qed.

(** The four cases of NumPy's broadcasting in [a - b]. *)
Lemma np_sub_cases (a b : list R) :
  (length a = length b -> np_sub a b = Ok (zip_sub a b)) /\
  (length a <> length b -> length b = 1%nat ->
   np_sub a b = Ok (map (fun x => x - nth 0 b 0) a)) /\
  (length a <> length b -> length b <> 1%nat -> length a = 1%nat ->
   np_sub a b = Ok (map (fun y => nth 0 a 0 - y) b)) /\
  (length a <> length b -> length b <> 1%nat -> length a <> 1%nat ->
   np_sub a b = Raise ValueError).
Proof.
  split; [apply np_sub_same_length |].
  unfold np_sub.
  destruct (Nat.eqb_spec (length a) (length b)) as [E | NE].
  - repeat split; intros; congruence.
  - destruct b as [| y [| y' b']]; destruct a as [| x [| x' a']];
      simpl in *; repeat split; intros; try congruence; try reflexivity.
Qed.

(** X1.  Every way [residuals_time] ends on a station array that is not
    empty.  A reference index outside [[-n, n)] is an [IndexError]; a
    measured array whose length is neither [n] nor 1, with [n] not 1, is a
    [ValueError]; in every other case an array is returned, of length [n], or
    of the length of the measured array when [n = 1]. *)
Theorem residuals_time_outcomes (p : point) (stations : list point)
    (rel_times : list R) (v : R) (ref_index : Z) :
  stations <> [] ->
  let n := length stations in
  let m := length rel_times in
  ((ref_index < - Z.of_nat n \/ Z.of_nat n <= ref_index)%Z ->
   residuals_time p stations rel_times v ref_index = Raise IndexError) /\
  ((- Z.of_nat n <= ref_index < Z.of_nat n)%Z ->
   m <> n -> m <> 1%nat -> n <> 1%nat ->
   residuals_time p stations rel_times v ref_index = Raise ValueError) /\
  ((- Z.of_nat n <= ref_index < Z.of_nat n)%Z ->
   m = n \/ m = 1%nat \/ n = 1%nat ->
   exists out,
     residuals_time p stations rel_times v ref_index = Ok out /\
     length out = if Nat.eqb n 1 then m else n).
Proof.
  intros Hne. cbv zeta. split; [| split].
  - intros Href. now apply residuals_time_out_of_range.
  - intros Href Hmn Hm1 Hn1.
    rewrite residuals_time_wrap by assumption.
    apply np_sub_cases; rewrite ?length_map; congruence.
  - intros Href Hcase.
    rewrite residuals_time_wrap by assumption.
    match goal with |- context [np_sub ?a ?b] =>
      pose proof (np_sub_cases a b) as (Hsame & Hb1 & Ha1 & _);
      set (t := a) in *
    end.
    assert (Ht : length t = length stations) by apply length_map.
    rewrite Ht in *.
    destruct (Nat.eq_dec (length stations) (length rel_times)) as [E | NE].
    + rewrite (Hsame E). eexists. split; [reflexivity |].
      rewrite zip_sub_length by congruence. rewrite Ht.
      destruct (Nat.eqb_spec (length stations) 1); congruence.
    + destruct (Nat.eq_dec (length rel_times) 1) as [E1 | NE1].
      * rewrite (Hb1 NE E1). eexists. split; [reflexivity |].
        rewrite length_map, Ht.
        destruct (Nat.eqb_spec (length stations) 1); congruence.
      * assert (Hn1 : length stations = 1%nat)
          by (destruct Hcase as [H | [H | H]]; congruence).
        rewrite (Ha1 NE NE1 Hn1). eexists. split; [reflexivity |].
        rewrite length_map, Hn1. reflexivity.
Qed.

(** X2.  A negative reference index counts from the end: with [ref_index] in
    [[-n, 0)] and [n] measured times, the residuals are those with station
    [n + ref_index] as the reference, so -1 designates the last station. *)
Theorem residuals_time_negative_reference (p : point)
    (stations : list point) (rel_times : list R) (v : R) (ref_index : Z) :
  (- Z.of_nat (length stations) <= ref_index < 0)%Z ->
  length rel_times = length stations ->
  exists out,
    residuals_time p stations rel_times v ref_index = Ok out /\
    length out = length stations /\
    forall i, (i < length stations)%nat ->
      nth i out 0
      = (norm (psub (nth i stations origin) p) / v
         - norm (psub (nth (Z.to_nat (ref_index + Z.of_nat (length stations)))
                         stations origin) p) / v)
        - nth i rel_times 0.
Proof.
  intros Href Hlen.
  rewrite residuals_time_negative by exact Href.
  rewrite residuals_time_eq by (try exact Hlen; lia).
  eexists. split; [reflexivity |]. split.
  - rewrite zip_sub_length; now rewrite length_map.
  - intros i Hi.
    rewrite zip_sub_nth by (rewrite length_map; lia).
    now rewrite (map_nth_in_range _ _ origin) by lia.
Qed.

(** X3.  A measured array of one element is not refused: it is broadcast,
    and every residual subtracts that one element.  With a single station it
    is the predicted entry, zero, that is broadcast over the measured array,
    whatever its length. *)
Theorem residuals_time_broadcast (p : point) (stations : list point)
    (v : R) (ref_index : Z) :
  (0 <= ref_index < Z.of_nat (length stations))%Z ->
  (forall r,
     residuals_time p stations [r] v ref_index
     = Ok (map (fun s =>
                  norm (psub s p) / v
                  - norm (psub (nth (Z.to_nat ref_index) stations origin) p) / v
                  - r)
             stations)) /\
  (length stations = 1%nat ->
   forall rel_times,
     residuals_time p stations rel_times v ref_index
     = Ok (map (fun y => - y) rel_times)).
Proof.
  intros Href.
  assert (Hne : stations <> [])
    by (destruct stations; simpl in *; [lia | discriminate]).
  assert (Hmod : (ref_index mod Z.of_nat (length stations))%Z = ref_index)
    by (apply Z.mod_small; lia).
  split.
  - intros r. rewrite residuals_time_wrap by (try exact Hne; lia).
    rewrite Hmod.
    match goal with |- context [np_sub ?a ?b] =>
      pose proof (np_sub_cases a b) as (Hsame & Hb1 & _)
    end.
    rewrite length_map in Hsame, Hb1. cbn [length] in Hsame, Hb1.
    destruct (Nat.eq_dec (length stations) 1) as [E | NE].
    + rewrite (Hsame E).
      destruct stations as [| s [| s' st']]; simpl in E; try lia.
      reflexivity.
    + rewrite (Hb1 NE eq_refl). rewrite map_map. reflexivity.
  - intros H1 rel_times.
    destruct stations as [| s [| s' st']]; simpl in H1; try lia.
    assert (ref_index = 0%Z) as -> by (simpl in Href; lia).
    rewrite residuals_time_wrap by (try discriminate; simpl; lia).
    cbn [map length]. change (Z.to_nat (0 mod Z.of_nat 1)) with 0%nat.
    cbn [nth]. unfold np_sub. cbn [length].
    destruct rel_times as [| y [| y' rel']]; cbn [length Nat.eqb zip_sub map].
    + reflexivity.
    + apply f_equal. list_lra.
    + apply f_equal. apply (f_equal2 (@cons R)); [lra |].
      apply (f_equal2 (@cons R)); [lra |].
      apply map_ext. intros; lra.
Qed.

(** X4.  The residual of the reference station does not depend on the
    candidate point: it is minus the measured relative time of that
    station. *)
Theorem reference_residual_constant (p : point) (stations : list point)
    (rel_times : list R) (v : R) (ref_index : Z) :
  (0 <= ref_index < Z.of_nat (length stations))%Z ->
  length rel_times = length stations ->
  exists out,
    residuals_time p stations rel_times v ref_index = Ok out /\
    nth (Z.to_nat ref_index) out 0 = - nth (Z.to_nat ref_index) rel_times 0.
Proof.
  intros Href Hlen. rewrite residuals_time_eq by assumption.
  eexists. split; [reflexivity |].
  rewrite zip_sub_nth by (rewrite length_map; lia).
  rewrite (map_nth_in_range _ _ origin) by lia. lra.
Qed.

(** X5.  In the scenarios that [main] generates the reference station never
    pulls the fit: its residual is zero at every candidate point. *)
Theorem reference_station_residual_zero (c : config) (g entropy : rng)
    (sc : scenario) (p : point) :
  main_generate c g entropy = Ok sc ->
  exists out,
    objective (stations sc) (measured_rel_times sc) (v c) (ref_index sc) p
    = Ok out /\
    length out = length (stations sc) /\
    nth (Z.to_nat (ref_index sc)) out 0 = 0.
Proof.
  intros H.
  pose proof (scenario_shape _ _ _ _ H) as (_ & _ & _ & Hlm & Href).
  pose proof (measured_at_reference _ _ _ _ H) as Hzero.
  apply getitem_Ok_nonneg in Hzero as [_ Hzero]; [| lia].
  unfold objective. rewrite residuals_time_eq by assumption.
  eexists. split; [reflexivity |]. split.
  - rewrite zip_sub_length; now rewrite length_map.
  - rewrite zip_sub_nth by (rewrite length_map; lia).
    rewrite (map_nth_in_range _ _ origin) by lia. rewrite Hzero. lra.
Qed.

(** ** The generator: where the points fall and which draws they use *)

Lemma gen_rows_nth (count : nat) (rad : R) :
  forall (g : rng) (i : nat),
    (i < count)%nat ->
    nth i (fst (gen_rows count rad g)) origin
    = station_of_draws rad (uniforms g (3 * i)%nat)
        (uniforms g (3 * i + 1)%nat) (uniforms g (3 * i + 2)%nat).
Proof.
  induction count as [| count IH]; intros g i Hi; [lia |].
  simpl.
  match goal with |- context [gen_rows count rad ?g'] =>
    specialize (IH g'); destruct (gen_rows count rad g') as [rest g4]
  end.
  simpl in *. destruct i as [| i]; [reflexivity |].
  rewrite IH by lia. simpl.
  replace (i + S (i + S (i + 0)))%nat with (S (S (i + (i + (i + 0)))))%nat
    by lia.
  f_equal; repeat f_equal; lia.
Qed.

(** X13.  [gen_station_positions] returns [max n 0] stations; station [i] is
    made of the draws [3i], [3i+1] and [3i+2] of the generator, and the call
    leaves the generator [3 max(n,0)] uniform draws further, its normal
    draws untouched. *)
Theorem gen_station_positions_draws (n : Z) (rad : R) (g : rng) :
  let count := Z.to_nat n in
  let out := gen_station_positions n rad g in
  length (fst out) = count /\
  (forall i, (i < count)%nat ->
     nth i (fst out) origin
     = station_of_draws rad (uniforms g (3 * i)%nat)
         (uniforms g (3 * i + 1)%nat) (uniforms g (3 * i + 2)%nat)) /\
  (forall k, uniforms (snd out) k = uniforms g (3 * count + k)%nat) /\
  (forall k, normals (snd out) k = normals g k).
Proof.
  cbv zeta. unfold gen_station_positions. split; [apply gen_rows_length |].
  split; [intros i Hi; now apply gen_rows_nth |].
  split; [apply gen_rows_state | apply gen_rows_normals].
Qed.

(** X17.  Every way the generation of lines 64-85 ends: with no station
    ([n <= 0]) the array subtraction of line 77 is a [ValueError]; with a
    negative noise deviation [np.random.normal] is a [ValueError]; otherwise
    a scenario of [n] stations is returned.  It never ends in an
    [IndexError]. *)
Theorem main_generate_outcomes (c : config) (g entropy : rng) :
  ((n c <= 0)%Z -> main_generate c g entropy = Raise ValueError) /\
  ((1 <= n c)%Z -> noise_std c < 0 ->
   main_generate c g entropy = Raise ValueError) /\
  ((1 <= n c)%Z -> 0 <= noise_std c ->
   exists sc,
     main_generate c g entropy = Ok sc /\
     length (stations sc) = Z.to_nat (n c) /\
     length (measured_rel_times sc) = Z.to_nat (n c)) /\
  main_generate c g entropy <> Raise IndexError.
Proof.
  assert (Hlow : (n c <= 0)%Z -> main_generate c g entropy = Raise ValueError)
    by apply main_generate_no_station.
  assert (Hneg : (1 <= n c)%Z -> noise_std c < 0 ->
                 main_generate c g entropy = Raise ValueError).
  { intros Hn Hstd. unfold main_generate, seed, gen_station_positions.
    pose proof (gen_rows_length (Z.to_nat (n c)) (rad c) entropy) as Hlen.
    destruct (gen_rows (Z.to_nat (n c)) (rad c) entropy) as [st g1].
    simpl in Hlen.
    destruct (gen_true_point (rad c) (dmin c) (dmax c) g1) as [tp g2].
    assert (Hne : st <> []) by (intros ->; simpl in Hlen; lia).
    rewrite (travel_times_nonempty _ _ _ Hne). cbn [bind].
    destruct st as [| s rest]; [contradiction |]. cbn [map argmin bind].
    unfold normal. destruct (Rlt_dec (noise_std c) 0) as [_ | H]; [| lra].
    reflexivity. }
  assert (Hok : (1 <= n c)%Z -> 0 <= noise_std c ->
                exists sc,
                  main_generate c g entropy = Ok sc /\
                  length (stations sc) = Z.to_nat (n c) /\
                  length (measured_rel_times sc) = Z.to_nat (n c)).
  { intros Hn Hstd.
    destruct (main_generate_total c g entropy Hn Hstd) as [sc H].
    exists sc. split; [exact H |].
    pose proof (scenario_shape _ _ _ _ H) as (_ & _ & _ & Hlm & _).
    apply main_generate_Ok in H as (Hst & _).
    assert (Hlen : length (stations sc) = Z.to_nat (n c))
      by (rewrite Hst; apply gen_rows_length).
    split; [exact Hlen | congruence]. }
  repeat split; try assumption.
  destruct (Z_le_gt_dec (n c) 0) as [Hn | Hn].
  - rewrite (Hlow Hn). discriminate.
  - destruct (Rlt_dec (noise_std c) 0) as [Hstd | Hstd].
    + rewrite Hneg by (try lia; assumption). discriminate.
    + destruct Hok as (sc & -> & _); [lia | lra |]. discriminate.
Qed.

(** ** The run with the constants of [main] (lines 64-104) *)

(** X20.  With the constants of [main], the generation and the initial guess
    cannot fail: a run of lines 64-104 ends as the call of the least-squares
    routine ends, in its exception or in the point of its result. *)
Theorem main_outcome (least_squares : solver) (g entropy : rng) :
  exists sc p0,
    main_generate main_config g entropy = Ok sc /\
    length (stations sc) = 7%nat /\
    initial_guess (stations sc) = Ok p0 /\
    main least_squares g entropy
    = (res_opt <- least_squares
                    (objective (stations sc) (measured_rel_times sc) 5000
                       (ref_index sc)) p0 ;;
       Ok (sc, x res_opt)).
Proof.
  destruct (main_generate_total main_config g entropy) as [sc H];
    [simpl; lia | simpl; lra |].
  pose proof H as H'. apply main_generate_Ok in H' as (Hst & _).
  assert (Hlen : length (stations sc) = 7%nat)
    by (rewrite Hst; apply gen_rows_length).
  assert (Hne : stations sc <> []) by (intros E; rewrite E in Hlen; discriminate).
  assert (Hp0 : exists p0, initial_guess (stations sc) = Ok p0).
  { unfold initial_guess, mean_rows. destruct (stations sc); [contradiction |].
    cbn [bind]. eexists. reflexivity. }
  destruct Hp0 as [p0 Hp0].
  exists sc, p0. repeat split; try assumption.
  unfold main. rewrite H. cbn [bind]. unfold main_solve. rewrite Hp0.
  cbn [bind]. change (v main_config) with 5000.
  destruct (least_squares _ p0); reflexivity.
Qed.

(** ** The random timestamp (lines 44-53) *)

Lemma randint_Ok (low high : Z) (raw : nat -> Z) :
  (low < high)%Z ->
  exists r,
    randint low high raw = Ok (r, fun k => raw (S k)) /\
    (low <= r < high)%Z.
Proof.
  intros H. unfold randint.
  destruct (Z.leb_spec high low) as [Hle | _]; [lia |].
  eexists. split; [reflexivity |].
  pose proof (Z.mod_pos_bound (raw 0%nat) (high - low)). lia.
Qed.

Lemma days_in_month_lower (y m : Z) : (28 <= days_in_month y m)%Z.
Proof.
  unfold days_in_month.
  destruct (m =? 2)%Z; [destruct (is_leap y); lia |].
  destruct ((m =? 4) || (m =? 6) || (m =? 9) || (m =? 11))%Z%bool; lia.
Qed.

Lemma datetime_new_Ok (y mo d h mi s : Z) :
  (1 <= y <= 9999)%Z -> (1 <= mo <= 12)%Z ->
  (1 <= d <= days_in_month y mo)%Z ->
  (0 <= h <= 23)%Z -> (0 <= mi <= 59)%Z -> (0 <= s <= 59)%Z ->
  datetime_new y mo d h mi s = Ok (mkDatetime y mo d h mi s).
Proof.
  intros Hy Hmo Hd Hh Hmi Hs. unfold datetime_new.
  repeat match goal with
         | |- context [(?a <=? ?b)%Z] =>
             destruct (Z.leb_spec a b); [| lia]
         end.
  reflexivity.
Qed.

(** X22.  [generate_random_datetime] never raises: whatever the generator
    yields, the six fields are accepted by the [datetime] constructor.  The
    year is between 2000 and 2029 (2030 is never drawn), the day between 1
    and 28, and the call takes six integer draws. *)
Theorem generate_random_datetime_valid (raw : nat -> Z) :
  exists dt,
    generate_random_datetime raw = Ok (dt, fun k => raw (6 + k)%nat) /\
    (2000 <= year dt <= 2029)%Z /\ (1 <= month dt <= 12)%Z /\
    (1 <= day dt <= 28)%Z /\ (day dt <= days_in_month (year dt) (month dt))%Z /\
    (0 <= hour dt <= 23)%Z /\ (0 <= minute dt <= 59)%Z /\
    (0 <= second dt <= 59)%Z.
Proof.
  unfold generate_random_datetime.
  destruct (randint_Ok 2000 2030 raw) as (y & -> & Hy); [lia |].
  cbn [bind fst snd].
  destruct (randint_Ok 1 13 (fun k => raw (S k))) as (mo & -> & Hmo); [lia |].
  cbn [bind fst snd].
  destruct (randint_Ok 1 29 (fun k => raw (S (S k)))) as (d & -> & Hd);
    [lia |].
  cbn [bind fst snd].
  destruct (randint_Ok 0 24 (fun k => raw (S (S (S k))))) as (h & -> & Hh);
    [lia |].
  cbn [bind fst snd].
  destruct (randint_Ok 0 60 (fun k => raw (S (S (S (S k))))))
    as (mi & -> & Hmi); [lia |].
  cbn [bind fst snd].
  destruct (randint_Ok 0 60 (fun k => raw (S (S (S (S (S k)))))))
    as (s & -> & Hs); [lia |].
  cbn [bind fst snd].
  pose proof (days_in_month_lower y mo) as Hdm.
  rewrite datetime_new_Ok by lia. cbn [bind].
  eexists. split; [reflexivity |].
  cbn [year month day hour minute second]. repeat split; lia.
Qed.

(** X23.  Every timestamp from 2000-01-01 00:00:00 to 2029-12-28 23:59:59
    whose day is at most 28 can be drawn: some values of the generator make
    [generate_random_datetime] return it. *)
Theorem generate_random_datetime_reaches (dt : datetime) :
  (2000 <= year dt <= 2029)%Z -> (1 <= month dt <= 12)%Z ->
  (1 <= day dt <= 28)%Z -> (0 <= hour dt <= 23)%Z ->
  (0 <= minute dt <= 59)%Z -> (0 <= second dt <= 59)%Z ->
  exists raw rest, generate_random_datetime raw = Ok (dt, rest).
Proof.
  intros Hy Hmo Hd Hh Hmi Hs.
  exists (fun k => match k with
                   | 0%nat => (year dt - 2000)%Z
                   | 1%nat => (month dt - 1)%Z
                   | 2%nat => (day dt - 1)%Z
                   | 3%nat => hour dt
                   | 4%nat => minute dt
                   | _ => second dt
                   end).
  eexists. unfold generate_random_datetime, randint.
  cbn [Z.leb Z.compare Pos.compare Pos.compare_cont bind fst snd].
  change (2030 - 2000)%Z with 30%Z. change (13 - 1)%Z with 12%Z.
  change (29 - 1)%Z with 28%Z. change (24 - 0)%Z with 24%Z.
  change (60 - 0)%Z with 60%Z.
  rewrite !Z.mod_small by lia.
  pose proof (days_in_month_lower (year dt) (month dt)) as Hdm.
  replace (2000 + (year dt - 2000))%Z with (year dt) by lia.
  replace (1 + (month dt - 1))%Z with (month dt) by lia.
  replace (1 + (day dt - 1))%Z with (day dt) by lia.
  rewrite !Z.add_0_l.
  rewrite datetime_new_Ok by lia. cbn [bind].
  destruct dt. reflexivity.
Qed.

(** * Instances

    Each theorem above that carries a hypothesis, applied to one of the
    example configurations. *)

(** The residuals of the collinear example at the ghost point. *)
Lemma residuals_time_entries_witness :
  exists out,
    residuals_time collinear_ghost collinear_stations collinear_rel_times
      5000 0 = Ok out /\
    length out = length collinear_stations /\
    forall i, (i < length collinear_stations)%nat ->
      nth i out 0
      = (norm (psub (nth i collinear_stations origin) collinear_ghost) / 5000
         - norm (psub (nth (Z.to_nat 0) collinear_stations origin)
                   collinear_ghost) / 5000)
        - nth i collinear_rel_times 0.
Proof.
  apply residuals_time_entries; [simpl; lia | reflexivity].
Defined.

(** The relative times of the collinear example before noise. *)
Lemma pre_noise_relative_times_witness :
  exists rel,
    relative_to [13000 / 5000; 15000 / 5000; 20000 / 5000] 0 = Ok rel /\
    (forall i, (i < length collinear_stations)%nat -> 0 <= nth i rel 0) /\
    nth (Z.to_nat 0) rel 0 = 0.
Proof.
  destruct (pre_noise_relative_times collinear_stations collinear_source 5000
              [13000 / 5000; 15000 / 5000; 20000 / 5000] 0
              (proj1 collinear_example_times)
              (proj1 (proj2 collinear_example_times)))
    as (rel & Hrel & _ & _ & Hpos & Hzero).
  exists rel. repeat split; assumption.
Defined.

(** A scenario of [main]'s own constants, every uniform draw 1/4. *)
Lemma generated_scenario_times_witness :
  exists sc,
    main_generate main_config (constant_rng 0) (constant_rng (1 / 4)) = Ok sc /\
    (0 <= ref_index sc)%Z /\
    length (measured_rel_times sc) = length (stations sc) /\
    forall i, (i < length (stations sc))%nat ->
      nth i (measured_rel_times sc) 0
      = nth i (noisy_times sc) 0
        - nth (Z.to_nat (ref_index sc)) (noisy_times sc) 0.
Proof.
  destruct (main_generate_total main_config (constant_rng 0)
              (constant_rng (1 / 4))) as [sc H];
    [simpl; lia | simpl; lra |].
  exists sc. split; [exact H |].
  destruct (generated_scenario_times _ _ _ _ H)
    as (Hpos & _ & _ & _ & Hlen & Hrel).
  repeat split; assumption.
Defined.

(** The reference entry of that scenario. *)
Lemma reference_relative_time_is_zero_witness :
  exists sc,
    main_generate main_config (constant_rng 0) (constant_rng (1 / 4)) = Ok sc /\
    getitem (measured_rel_times sc) (ref_index sc) = Ok 0.
Proof.
  destruct (main_generate_total main_config (constant_rng 0)
              (constant_rng (1 / 4))) as [sc H];
    [simpl; lia | simpl; lra |].
  exists sc. split; [exact H |].
  exact (proj1 (reference_relative_time_is_zero _ _ _ _ H)).
Defined.

(** Two entropy states that part only after the draws [main] consumes. *)
Lemma scenario_determined_by_entropy_witness :
  main_generate main_config (constant_rng 0) (constant_rng 0)
  = main_generate main_config (constant_rng 1) (step_rng 24 7).
Proof.
  apply (scenario_determined_by_entropy main_config (constant_rng 0)
           (constant_rng 1) (constant_rng 0) (step_rng 24 7)).
  split; intros k Hk; simpl in Hk; simpl.
  - destruct (Nat.ltb_spec k 24) as [_ | Hge]; [reflexivity | lia].
  - destruct (Nat.ltb_spec k 7) as [_ | Hge]; [reflexivity | lia].
Defined.

(** The invalid configuration, run. *)
Lemma configuration_not_validated_witness :
  exists sc,
    main_generate invalid_config (constant_rng 0) (constant_rng (1 / 4))
    = Ok sc /\
    length (stations sc) = 3%nat /\
    pz (true_point sc) = - (10000 + (500 - 10000) * (1 / 4)).
Proof.
  destruct (configuration_not_validated invalid_config (constant_rng 0)
              (constant_rng (1 / 4))) as (sc & H & Hlen & Hz & _);
    [simpl; lia | simpl; lra | simpl; lra |].
  exists sc. split; [exact H |]. split; [exact Hlen | exact Hz].
Defined.

(** The start point for the collinear stations. *)
Lemma initial_guess_centroid_witness :
  exists p0,
    initial_guess collinear_stations = Ok p0 /\
    px p0
    = fold_right Rplus 0 (map px collinear_stations)
      / INR (length collinear_stations) /\
    pz p0 = -5000.
Proof.
  destruct (initial_guess_centroid collinear_stations)
    as (p0 & H & Hx & _ & Hz & _); [discriminate |].
  exists p0. repeat split; assumption.
Defined.



(** Three stations and seven measured times, the reference index in
    range. *)
Lemma residuals_time_outcomes_witness :
  residuals_time line_source line_stations [0; 0; 0; 0; 0; 0; 0] 5000 0
  = Raise ValueError.
Proof.
  apply (residuals_time_outcomes line_source line_stations
           [0; 0; 0; 0; 0; 0; 0] 5000 0); [discriminate | | | |];
    simpl; lia.
Defined.

(** A scenario without noise. *)
Lemma zero_noise_true_point_fits_witness :
  exists sc,
    main_generate zero_noise_config (constant_rng 0) (constant_rng (1 / 4))
    = Ok sc /\
    least_squares_solution
      (objective (stations sc) (measured_rel_times sc) (v zero_noise_config)
         (ref_index sc))
      (true_point sc).
Proof.
  destruct (main_generate_total zero_noise_config (constant_rng 0)
              (constant_rng (1 / 4))) as [sc H];
    [simpl; lia | simpl; lra |].
  exists sc. split; [exact H |].
  exact (proj2 (proj2 (zero_noise_true_point_fits zero_noise_config _ _ _
                         eq_refl H))).
Defined.

(** The collinear example with the last station as the reference. *)
Lemma residuals_time_negative_reference_witness :
  exists out,
    residuals_time collinear_source collinear_stations collinear_rel_times
      5000 (-1) = Ok out /\
    length out = 3%nat.
Proof.
  destruct (residuals_time_negative_reference collinear_source
              collinear_stations collinear_rel_times 5000 (-1))
    as (out & H & Hlen & _); [simpl; lia | reflexivity |].
  exists out. split; [exact H | exact Hlen].
Defined.

(** One measured time for the three collinear stations. *)
Lemma residuals_time_broadcast_witness :
  exists out,
    residuals_time collinear_source collinear_stations [2 / 5] 5000 0 = Ok out /\
    length out = 3%nat.
Proof.
  eexists. split.
  - apply (proj1 (residuals_time_broadcast collinear_source
                    collinear_stations 5000 0 ltac:(simpl; lia))).
  - reflexivity.
Defined.

(** The reference residual of the collinear example at the ghost point. *)
Lemma reference_residual_constant_witness :
  exists out,
    residuals_time collinear_ghost collinear_stations collinear_rel_times
      5000 0 = Ok out /\
    nth (Z.to_nat 0) out 0 = - nth (Z.to_nat 0) collinear_rel_times 0.
Proof.
  apply reference_residual_constant; [simpl; lia | reflexivity].
Defined.

(** The reference residual of a scenario of [main] at the origin. *)
Lemma reference_station_residual_zero_witness :
  exists sc out,
    main_generate main_config (constant_rng 0) (constant_rng (1 / 4)) = Ok sc /\
    objective (stations sc) (measured_rel_times sc) 5000 (ref_index sc) origin
    = Ok out /\
    nth (Z.to_nat (ref_index sc)) out 0 = 0.
Proof.
  destruct (main_generate_total main_config (constant_rng 0)
              (constant_rng (1 / 4))) as [sc H];
    [simpl; lia | simpl; lra |].
  destruct (reference_station_residual_zero main_config _ _ sc origin H)
    as (out & Hout & _ & Hzero).
  exists sc, out. repeat split; assumption.
Defined.

(** Leap day excluded: 2024-02-28 23:59:59 can be drawn. *)
Lemma generate_random_datetime_reaches_witness :
  exists raw rest,
    generate_random_datetime raw = Ok (mkDatetime 2024 2 28 23 59 59, rest).
Proof.
  apply (generate_random_datetime_reaches (mkDatetime 2024 2 28 23 59 59));
    simpl; lia.
Defined.
